(** * motulator: observers of the induction-machine drive and converter models

    A shallow embedding of [motulator/control/im/_common.py] (the reduced-order
    and the full-order flux observers) and of [motulator/model/_converter.py]
    (the lossless inverter and the diode-bridge frequency converter).

    Python's [float] and numpy's [float64]/[complex128] are idealised as the
    real numbers [R] and as pairs of reals: rounding, infinities and NaN are
    outside the model.  A quotient whose denominator is zero has no value in
    that idealisation (Python's own [/] raises [ZeroDivisionError] there,
    numpy's returns an infinity or NaN): the division operators below raise
    [ZeroDivisionError].  Every division a method executes is recorded in the
    run's list of division events, so that "this quotient is not evaluated"
    is a statement about the run. *)

From Stdlib Require Import Reals Lra List String ZArith.
From stdpp Require Import gmap strings.

Open Scope R_scope.

(** ** Complex numbers *)

Record complex : Type := mkC { real : R; imag : R }.

Declare Scope complex_scope.
Delimit Scope complex_scope with C.
Bind Scope complex_scope with complex.

Definition RtoC (x : R) : complex := mkC x 0.
Coercion RtoC : R >-> complex.

(** The imaginary unit, Python's [1j]. *)
Definition j : complex := mkC 0 1.

Definition Cadd (z w : complex) : complex :=
  mkC (real z + real w) (imag z + imag w).
Definition Copp (z : complex) : complex := mkC (- real z) (- imag z).
Definition Csub (z w : complex) : complex :=
  mkC (real z - real w) (imag z - imag w).
Definition Cmul (z w : complex) : complex :=
  mkC (real z * real w - imag z * imag w) (real z * imag w + imag z * real w).
Definition conj (z : complex) : complex := mkC (real z) (- imag z).

(** [np.exp] on a complex argument. *)
Definition Cexp (z : complex) : complex :=
  mkC (exp (real z) * cos (imag z)) (exp (real z) * sin (imag z)).

Infix "+" := Cadd : complex_scope.
Infix "-" := Csub : complex_scope.
Infix "*" := Cmul : complex_scope.
Notation "- z" := (Copp z) : complex_scope.

(** ** Runs: exceptions, the object a method mutates, and divisions *)

Inductive exn : Type :=
| ZeroDivisionError
| NotImplementedError
| AttributeError.

Inductive result (A : Type) : Type :=
| Ok (a : A)
| Raise (e : exn).
Arguments Ok {A} a.
Arguments Raise {A} e.

(** One executed division: the variable whose right-hand side holds the [/],
    and the value of the denominator. *)
Record div_event : Type := Div { site : string; denominator : R }.

(** What a run leaves: the value returned or the exception raised, the
    object(s) the method works on (an exception does not undo the assignments
    made before it), and the divisions executed, in order. *)
Record Outcome (S A : Type) : Type :=
  mkOutcome { value : result A; final : S; divisions : list div_event }.
Arguments mkOutcome {S A} value final divisions.
Arguments value {S A} o.
Arguments final {S A} o.
Arguments divisions {S A} o.

Definition M (S A : Type) : Type := S -> Outcome S A.

Definition ret {S A} (a : A) : M S A := fun s => mkOutcome (Ok a) s [].

Definition bind {S A B} (m : M S A) (f : A -> M S B) : M S B :=
  fun s =>
    match m s with
    | mkOutcome (Ok a) s' tr =>
        match f a s' with
        | mkOutcome v s'' tr' => mkOutcome v s'' (tr ++ tr')
        end
    | mkOutcome (Raise e) s' tr => mkOutcome (Raise e) s' tr
    end.

Definition get {S} : M S S := fun s => mkOutcome (Ok s) s [].
Definition raise {S A} (e : exn) : M S A := fun s => mkOutcome (Raise e) s [].

(** A call of a caller-supplied function (the observer gain): it returns a
    value or raises; what it divides by is the caller's business. *)
Definition call {S A} (r : result A) : M S A := fun s => mkOutcome r s [].

#[global] Instance M_ret {S} : MRet (M S) := fun A => @ret S A.
#[global] Instance M_bind {S} : MBind (M S) := fun A B f m => bind m f.

Definition modify {S} (f : S -> S) : M S unit :=
  fun s => mkOutcome (Ok tt) (f s) [].

(** [x / y] on reals. *)
Definition div (x y : R) : result R :=
  if Req_dec_T y 0 then Raise ZeroDivisionError else Ok (x / y).

(** [z / y] for a complex [z] and a real [y]. *)
Definition Cdiv_real (z : complex) (y : R) : complex :=
  mkC (real z / y) (imag z / y).

Definition div_complex (z : complex) (y : R) : result complex :=
  if Req_dec_T y 0 then Raise ZeroDivisionError else Ok (Cdiv_real z y).

(** The same two inside a method, in the statement that assigns [at_]. *)
Definition rdiv {S} (at_ : string) (x y : R) : M S R :=
  fun s => mkOutcome (div x y) s [Div at_ y].

Definition cdiv_real {S} (at_ : string) (z : complex) (y : R) : M S complex :=
  fun s => mkOutcome (div_complex z y) s [Div at_ y].

(** [z / w] for complex [z] and [w], as a plain result (used by the default
    gain functions, which are called, not run). *)
Definition cdiv (z w : complex) : result complex :=
  let d := real w * real w + imag w * imag w in
  if Req_dec_T d 0 then Raise ZeroDivisionError
  else Ok (mkC ((real z * real w + imag z * imag w) / d)
               ((imag z * real w - real z * imag w) / d)).

#[global] Instance result_ret : MRet result := fun A => @Ok A.
#[global] Instance result_bind : MBind result :=
  fun A B f r => match r with Ok a => f a | Raise e => Raise e end.

(** ** [motulator._helpers.wrap] *)

(** Modelled from the spec: [wrap], imported from [motulator/_helpers.py],
    which is not among the sources.  The spec says of it only that the angle
    state is "always wrapped into (-pi, pi]": [wrap theta] is the angle of
    that interval that differs from [theta] by a whole number of turns. *)
Definition wrap (theta : R) : R :=
  theta + 2 * PI * IZR (Int_part ((PI - theta) / (2 * PI))).

(** ** [motulator/control/im/_common.py] *)

(** [ModelPars]: a dataclass, hence an ordinary mutable instance.  Besides the
    six declared fields it carries whatever attributes are assigned to it
    later ([attrs], the rest of its [__dict__]). *)
Record ModelPars : Type := mkModelPars {
  R_s : R;
  R_R : R;
  L_sgm : R;
  L_M : R;
  n_p : Z;
  J : R;
  attrs : gmap string R
}.

(** The names of the attributes a [ModelPars] instance carries. *)
Definition declared_fields : gset string :=
  {[ "R_s"; "R_R"; "L_sgm"; "L_M"; "n_p"; "J" ]}.
Definition fields (par : ModelPars) : gset string :=
  declared_fields ∪ dom (attrs par).

(** [par.name = v] for a name outside the declared fields. *)
Definition setattr (par : ModelPars) (name : string) (v : R) : ModelPars :=
  mkModelPars (R_s par) (R_R par) (L_sgm par) (L_M par) (n_p par) (J par)
              (<[name := v]> (attrs par)).

(** [par.name] for a name outside the declared fields. *)
Definition getattr {S} (par : ModelPars) (name : string) : M S R :=
  match attrs par !! name with
  | Some v => mret v
  | None => raise AttributeError
  end.

(** The feedback object [fbk] (a [SimpleNamespace]): the measured signals the
    caller sets ([u_ss], [i_ss], and [w_m] in the sensored mode) and the
    signals [output] assigns before it returns the same object. *)
Module fbk.
Record t : Type := mk {
  u_ss : complex;
  i_ss : complex;
  w_m : R;
  psi_R : R;
  theta_s : R;
  i_s : complex;
  u_s : complex;
  psi_s : complex;
  w_s : R;
  w_r : R
}.
End fbk.

(** The objects a method of an observer works on.  [self.par] is the very
    [ModelPars] instance the caller passed in [observer_par.model_par]
    ([__init__] stores the reference, it does not copy): [model_par] is that
    one instance, seen by the observer and by its caller alike. *)
Record World (O : Type) : Type := mkWorld { model_par : ModelPars; self : O }.
Arguments mkWorld {O} model_par self.
Arguments model_par {O} w.
Arguments self {O} w.

(** [ObserverPars.gain]. *)
Module gain.
Record t : Type := mk {
  alpha_o : R;
  k_o : R -> result complex
}.
End gain.

Record ObserverPars : Type := mkObserverPars {
  op_model_par : ModelPars;
  op_T_s : R;
  op_sensorless : bool;
  op_gain : gain.t
}.

(** The default observer gains, the two lambdas of [__post_init__]. *)
Definition default_k_o_sensorless (alpha : R) : R -> result complex :=
  fun w_m =>
    cdiv (RtoC (5 / 10 * alpha + 2 / 10 * Rabs w_m)) (alpha - j * w_m)%C.

Definition default_k_o_sensored (alpha : R) : R -> result complex :=
  fun w_m =>
    q ← cdiv (RtoC (2 / 10 * Rabs w_m)) (alpha - j * w_m)%C;
    mret (1 + q)%C.

(** [ObserverPars(model_par, T_s, sensorless, alpha_o, k_o)]: the generated
    [__init__] followed by [__post_init__]. *)
Definition ObserverPars_init (model_par : ModelPars) (T_s : R)
    (sensorless : bool) (alpha_o : R) (k_o : option (R -> result complex))
  : result ObserverPars :=
  alpha ← div (R_R model_par) (L_M model_par);
  let k_o :=
    if sensorless then
      match k_o with
      | None => default_k_o_sensorless alpha
      | Some k_o => k_o
      end
    else
      match k_o with
      | None => default_k_o_sensored alpha
      | Some k_o => k_o
      end in
  (* Collect the gains *)
  mret (mkObserverPars model_par T_s sensorless (gain.mk alpha_o k_o)).

(** The default of [alpha_o]. *)
Definition default_alpha_o : R := 2 * PI * 40.

(** A vector in stator coordinates, in estimated rotor flux coordinates:
    [np.exp(-1j*fbk.theta_s)*z_ss]. *)
Definition rotate (theta_s : R) (z_ss : complex) : complex :=
  (Cexp (- j * theta_s) * z_ss)%C.

(** *** The reduced-order flux observer *)

Module Observer.

Module state.
Record t : Type := mk { psi_R : R; theta_s : R; w_m : R }.
End state.

Module work.
Record t : Type := mk { d_psi_R : R; d_w_m : R; old_i_s : complex }.
End work.

(** The instance, without [par] (see [World]). *)
Record t : Type := mk {
  sensorless : bool;
  T_s : R;
  gain : gain.t;
  state : state.t;
  _work : work.t
}.

Definition init (observer_par : ObserverPars) : World t :=
  mkWorld (op_model_par observer_par)
    (mk (op_sensorless observer_par) (op_T_s observer_par)
        (op_gain observer_par)
        (* Initialize states *)
        (state.mk 0 0 0)
        (* Internal work variables for the update method *)
        (work.mk 0 0 0)).

(** An assignment to an attribute of [self._work]. *)
Definition set_work (f : work.t -> work.t) (w : World t) : World t :=
  let o := self w in
  mkWorld (model_par w)
          (mk (sensorless o) (T_s o) (gain o) (state o) (f (_work o))).

(** The local variables of [output], each as the source computes it. *)
Definition v_s_of (par : ModelPars) (u_s i_s d_i_s : complex) : complex :=
  (u_s - R_s par * i_s - L_sgm par * d_i_s)%C.

Definition v_r_of (par : ModelPars) (i_s : complex) (alpha w_m psi_R : R)
  : complex :=
  (R_R par * i_s - (alpha - j * w_m) * psi_R)%C.

(** The observer gains [(k_o1, k_o2)]. *)
Definition gains (o : t) (w_m : R) : result (complex * complex) :=
  if sensorless o then
    k_o1 ← gain.k_o (gain o) w_m;
    let k_o2 := k_o1 in
    mret (k_o1, k_o2)
  else
    k_o1 ← gain.k_o (gain o) w_m;
    mret (k_o1, RtoC 0).

Definition den_of (par : ModelPars) (psi_R : R) (i_s k_o1 k_o2 : complex)
  : R :=
  psi_R + L_sgm par * real ((1 - k_o1) * i_s + k_o2 * conj i_s)%C.

Definition num_of (v_s v_r k_o1 k_o2 : complex) : R :=
  imag (v_s + k_o1 * (v_r - v_s) + k_o2 * conj (v_r - v_s))%C.

Definition d_psi_R_of (v v_r k_o1 k_o2 : complex) : R :=
  real (v + k_o1 * (v_r - v) + k_o2 * conj (v_r - v))%C.

Definition output (fbk0 : fbk.t) : M (World t) fbk.t :=
  w ← get;
  let o := self w in
  (* Parameter estimates *)
  let par := model_par w in
  (* Get the rotor flux estimate *)
  let psi_R := state.psi_R (state o) in
  let theta_s := state.theta_s (state o) in
  (* Get the rotor speed estimate in the sensorless mode *)
  let w_m := if sensorless o then state.w_m (state o) else fbk.w_m fbk0 in
  (* Current and voltage vectors in estimated rotor flux coordinates *)
  let i_s := rotate theta_s (fbk.i_ss fbk0) in
  let u_s := rotate theta_s (fbk.u_ss fbk0) in
  (* Stator flux estimate *)
  let psi_s := (L_sgm par * i_s + psi_R)%C in
  (* Induced voltage from the stator quantities *)
  d_i_s ← cdiv_real "d_i_s" (i_s - work.old_i_s (_work o))%C (T_s o);
  let v_s := v_s_of par u_s i_s d_i_s in
  (* Induced voltage from the rotor quantities *)
  alpha ← rdiv "v_r" (R_R par) (L_M par);
  let v_r := v_r_of par i_s alpha w_m psi_R in
  (* Observer gains *)
  '(k_o1, k_o2) ← call (gains o w_m);
  (* Angular frequencies *)
  let den := den_of par psi_R i_s k_o1 k_o2 in
  let num := num_of v_s v_r k_o1 k_o2 in
  w_s ← (if Rlt_dec 0 den then rdiv "w_s" num den else mret w_m);
  w_r ← (if Rlt_dec 0 psi_R then rdiv "w_r" (R_R par * imag i_s) psi_R
         else mret 0);
  (* Compute and store the derivatives for the update method *)
  let v := (v_s - j * RtoC w_s * L_sgm par * i_s)%C in
  modify (set_work (fun k =>
    work.mk (d_psi_R_of v v_r k_o1 k_o2) (work.d_w_m k) (work.old_i_s k)));;
  modify (set_work (fun k =>
    work.mk (work.d_psi_R k)
            (gain.alpha_o (gain o) * (w_s - w_r - w_m))
            (work.old_i_s k)));;
  mret (fbk.mk (fbk.u_ss fbk0) (fbk.i_ss fbk0) w_m psi_R theta_s i_s u_s
               psi_s w_s w_r).

Definition update (T_s' : R) (fbk1 : fbk.t) : M (World t) unit :=
  modify (fun w =>
    let o := self w in
    mkWorld (model_par w)
      (mk (sensorless o)
          (* Update the sampling period (needed in the output method) *)
          T_s'
          (gain o)
          (* Update the states *)
          (state.mk
             (state.psi_R (state o) + T_s' * work.d_psi_R (_work o))
             (wrap (state.theta_s (state o) + T_s' * fbk.w_s fbk1))
             (state.w_m (state o) + T_s' * work.d_w_m (_work o)))
          (* Store the old current *)
          (work.mk (work.d_psi_R (_work o)) (work.d_w_m (_work o))
                   (fbk.i_s fbk1)))).

End Observer.

(** *** The full-order flux observer *)

(** [FullOrderObserverPars.gain]: [__post_init__] adds [alpha_i] and [g] to
    the gains collected by [ObserverPars]. *)
Module gain_full.
Record t : Type := mk {
  alpha_o : R;
  k_o : R -> result complex;
  alpha_i : R;
  g : R
}.
End gain_full.

Record FullOrderObserverPars : Type := mkFullOrderObserverPars {
  fop_model_par : ModelPars;
  fop_T_s : R;
  fop_sensorless : bool;
  fop_gain : gain_full.t
}.

Definition FullOrderObserverPars_init (model_par : ModelPars) (T_s : R)
    (sensorless : bool) (alpha_o : R) (k_o : option (R -> result complex))
    (alpha_i : R)
  : result FullOrderObserverPars :=
  p ← ObserverPars_init model_par T_s sensorless alpha_o k_o;
  alpha ← div (R_R model_par) (L_M model_par);
  mret (mkFullOrderObserverPars model_par T_s sensorless
          (gain_full.mk (gain.alpha_o (op_gain p)) (gain.k_o (op_gain p))
                        alpha_i (alpha_i - alpha))).

(** The default of [alpha_i]. *)
Definition default_alpha_i : R := 2 * PI * 400.

Module FullOrderObserver.

Module state.
Record t : Type := mk { psi_R : R; i_s : complex; theta_s : R; w_m : R }.
End state.

Module work.
Record t : Type := mk { d_psi_R : R; d_i_s : complex; d_w_m : R }.
End work.

(** The instance, without [par] (see [World]). *)
Record t : Type := mk {
  sensorless : bool;
  gain : gain_full.t;
  state : state.t;
  _work : work.t
}.

(** [__init__], for parameters that carry the gains of the full-order
    observer. *)
Definition init (observer_par : FullOrderObserverPars)
  : result (World t) :=
  let o :=
    mk (fop_sensorless observer_par) (fop_gain observer_par)
       (* Initialize states *)
       (state.mk 0 0 0 0)
       (* Internal work variables for the update method *)
       (work.mk 0 0 0) in
  if negb (sensorless o) then Raise NotImplementedError
  else Ok (mkWorld (fop_model_par observer_par) o).

(** An assignment to an attribute of [self._work], and one to an attribute
    of [par]. *)
Definition set_work (f : work.t -> work.t) (w : World t) : World t :=
  let o := self w in
  mkWorld (model_par w) (mk (sensorless o) (gain o) (state o) (f (_work o))).

Definition set_par (name : string) (v : R) (w : World t) : World t :=
  mkWorld (setattr (model_par w) name v) (self w).

Definition par_attr (name : string) : M (World t) R :=
  w ← get; getattr (model_par w) name.

(** The local variables of [output], each as the source computes it. *)
Definition den_of (par : ModelPars) (psi_R : R) (err_i_s : complex) : R :=
  psi_R - L_sgm par * real err_i_s.

Definition num_of (par : ModelPars) (gain : gain_full.t)
    (i_s k err_i_s : complex) : R :=
  R_R par * imag i_s
  + L_sgm par * (gain_full.alpha_i gain * imag k * real err_i_s
                 - gain_full.g gain * imag err_i_s).

Definition k_i_of (par : ModelPars) (gain : gain_full.t)
    (w_s w_m R_sgm : R) : complex :=
  (L_sgm par * (gain_full.g gain - j * RtoC (w_s - w_m)) - R_sgm)%C.

(** The dividend of [self._work.d_i_s]. *)
Definition d_i_s_dividend (par : ModelPars) (R_sgm par_alpha : R)
    (u_s state_i_s : complex) (psi_R w_s w_m : R) (k_i err_i_s : complex)
  : complex :=
  (u_s - (R_sgm + j * w_s * L_sgm par) * state_i_s
   + (par_alpha - j * w_m) * psi_R + k_i * err_i_s)%C.

Definition d_psi_R_of (par : ModelPars) (gain : gain_full.t)
    (par_alpha psi_R : R) (i_s k err_i_s : complex) (w_s w_m : R) : R :=
  - par_alpha * psi_R + R_R par * real i_s
  + (gain_full.alpha_i gain * real k - gain_full.g gain)
    * L_sgm par * real err_i_s
  - (w_s - w_m) * L_sgm par * imag err_i_s.

Definition output (fbk0 : fbk.t) : M (World t) fbk.t :=
  w ← get;
  let o := self w in
  (* Unpack *)
  let par := model_par w in
  let gain := gain o in
  modify (set_par "R_sgm" (R_s par + R_R par));;
  alpha ← rdiv "alpha" (R_R par) (L_M par);
  modify (set_par "alpha" alpha);;
  (* Get the estimates *)
  let psi_R := state.psi_R (state o) in
  let theta_s := state.theta_s (state o) in
  let fbk_w_m := state.w_m (state o) in
  (* Current and voltage vectors in estimated rotor flux coordinates *)
  let i_s := rotate theta_s (fbk.i_ss fbk0) in
  let u_s := rotate theta_s (fbk.u_ss fbk0) in
  (* Stator flux estimate *)
  let psi_s := (L_sgm par * state.i_s (state o) + psi_R)%C in
  (* Current estimation error *)
  let err_i_s := (i_s - state.i_s (state o))%C in
  (* PI-type speed adaptation *)
  p_term ← (if Rlt_dec 0 psi_R
            then rdiv "p_term"
                   (- gain_full.alpha_o gain * L_sgm par * imag err_i_s)
                   psi_R
            else mret 0);
  let w_m := p_term + state.w_m (state o) in
  (* Angular frequency of the rotor flux vector *)
  let den := den_of par psi_R err_i_s in
  k ← call (gain_full.k_o gain w_m);
  let num := num_of par gain i_s k err_i_s in
  w_s ← (if Rlt_dec 0 den
         then q ← rdiv "w_s" num den; mret (w_m + q)
         else mret w_m);
  (* Compute the derivatives *)
  R_sgm ← par_attr "R_sgm";
  let k_i := k_i_of par gain w_s w_m R_sgm in
  R_sgm ← par_attr "R_sgm";
  par_alpha ← par_attr "alpha";
  d_i_s ← cdiv_real "d_i_s"
            (d_i_s_dividend par R_sgm par_alpha u_s (state.i_s (state o))
                            psi_R w_s w_m k_i err_i_s)
            (L_sgm par);
  modify (set_work (fun x =>
    work.mk (work.d_psi_R x) d_i_s (work.d_w_m x)));;
  par_alpha ← par_attr "alpha";
  k ← call (gain_full.k_o gain w_m);
  modify (set_work (fun x =>
    work.mk (d_psi_R_of par gain par_alpha psi_R i_s k err_i_s w_s w_m)
            (work.d_i_s x) (work.d_w_m x)));;
  (* Derivative of the integral term of the speed estimate *)
  d_w_m ← (if Rlt_dec 0 psi_R
           then rdiv "d_w_m"
                  (- gain_full.alpha_o gain * gain_full.alpha_i gain
                   * L_sgm par * imag err_i_s)
                  psi_R
           else mret 0);
  modify (set_work (fun x =>
    work.mk (work.d_psi_R x) (work.d_i_s x) d_w_m));;
  mret (fbk.mk (fbk.u_ss fbk0) (fbk.i_ss fbk0) fbk_w_m psi_R theta_s i_s
               u_s psi_s w_s
               (* [w_r] is not assigned by this method *)
               (fbk.w_r fbk0)).

Definition update (T_s : R) (fbk1 : fbk.t) : M (World t) unit :=
  modify (fun w =>
    let o := self w in
    mkWorld (model_par w)
      (mk (sensorless o) (gain o)
          (state.mk
             (state.psi_R (state o) + T_s * work.d_psi_R (_work o))
             (state.i_s (state o) + T_s * work.d_i_s (_work o))%C
             (wrap (state.theta_s (state o) + T_s * fbk.w_s fbk1))
             (state.w_m (state o) + T_s * work.d_w_m (_work o)))
          (_work o))).

End FullOrderObserver.

(** ** [motulator/model/_converter.py] *)

Module Inverter.

Record t : Type := mk { u_dc0 : R }.

Definition init (u_dc : R) : t := mk u_dc.

(** The AC-side voltage of a lossless inverter. *)
Definition ac_voltage (q : complex) (u_dc : R) : complex :=
  let u_c := (q * u_dc)%C in
  u_c.

(** The DC-side current of a lossless inverter. *)
Definition dc_current (q i_c : complex) : R :=
  let i_dc := 15 / 10 * real (q * conj i_c)%C in
  i_dc.

Definition meas_dc_voltage (self : t) : R := u_dc0 self.

End Inverter.

Module FrequencyConverter.

Record t : Type := mk {
  L : R;
  C : R;
  i_L0 : R;
  u_dc0 : R;
  u_g : R;
  w_g : R
}.

Definition init (L C U_g f_g : R) : t :=
  mk L C
     (* Initial value of the DC-bus inductor current *)
     0
     (* Initial value of the DC-bus voltage *)
     (sqrt 2 * U_g)
     (* Peak-valued line-neutral grid voltage *)
     (sqrt (2 / 3) * U_g)
     (* Grid angular frequency *)
     (2 * PI * f_g).

(** The three phase voltages. *)
Definition grid_voltages (self : t) (t : R) : R * R * R :=
  let theta_g := w_g self * t in
  (u_g self * cos theta_g,
   u_g self * cos (theta_g - 2 * PI / 3),
   u_g self * cos (theta_g - 4 * PI / 3)).

Definition amax (u : R * R * R) : R :=
  let '(a, b, c) := u in Rmax (Rmax a b) c.
Definition amin (u : R * R * R) : R :=
  let '(a, b, c) := u in Rmin (Rmin a b) c.

(** The state derivatives [[d_u_dc, d_i_L]]. *)
Definition f (t u_dc i_L i_dc : R) : M FrequencyConverter.t (R * R) :=
  self ← get;
  (* Grid phase voltages *)
  let u_g_abc := grid_voltages self t in
  (* Output voltage of the diode bridge *)
  let u_di := amax u_g_abc - amin u_g_abc in
  (* State derivatives *)
  d_u_dc ← rdiv "d_u_dc" (i_L - i_dc) (C self);
  d_i_L ← rdiv "d_i_L" (u_di - u_dc) (L self);
  (* The inductor current cannot be negative due to the diode bridge *)
  let d_i_L :=
    if Rlt_dec i_L 0 then if Rlt_dec d_i_L 0 then 0 else d_i_L
    else d_i_L in
  mret (d_u_dc, d_i_L).

End FrequencyConverter.

(** * The vocabulary of the statements *)

(** ** Runs *)

(** [post m s Q]: the run of [m] from [s] ends with a value (or exception),
    objects and divisions that satisfy [Q]. *)
Definition post {S A} (m : M S A) (s : S)
    (Q : result A -> S -> list div_event -> Prop) : Prop :=
  match m s with mkOutcome v s' tr => Q v s' tr end.

(** A caller-supplied function that returns a value on every argument. *)
Definition returns {A B} (f : A -> result B) : Prop :=
  forall a, exists b, f a = Ok b.

(** ** One call of [Observer.output] *)

(** The quantities of a call that returned [out], from the observer [w] it
    was called on. *)
Module ObserverCall.
Section Call.
Variables (w : World Observer.t) (out : fbk.t).
Let o := self w.
Let par := model_par w.

Definition v_s : complex :=
  Observer.v_s_of par (fbk.u_s out) (fbk.i_s out)
    (Cdiv_real (fbk.i_s out - Observer.work.old_i_s (Observer._work o))%C
               (Observer.T_s o)).

Definition v_r : complex :=
  Observer.v_r_of par (fbk.i_s out) (R_R par / L_M par) (fbk.w_m out)
                  (fbk.psi_R out).

Definition den (k_o1 k_o2 : complex) : R :=
  Observer.den_of par (fbk.psi_R out) (fbk.i_s out) k_o1 k_o2.

Definition num (k_o1 k_o2 : complex) : R :=
  Observer.num_of v_s v_r k_o1 k_o2.

Definition v : complex :=
  (v_s - j * RtoC (fbk.w_s out) * L_sgm par * fbk.i_s out)%C.

End Call.
End ObserverCall.

(** ** One call of [FullOrderObserver.output] *)

Module FullOrderCall.
Section Call.
Variables (w : World FullOrderObserver.t) (out : fbk.t).
Let o := self w.
Let par := model_par w.
Let gain := FullOrderObserver.gain o.

Definition err_i_s : complex :=
  (fbk.i_s out
   - FullOrderObserver.state.i_s (FullOrderObserver.state o))%C.

Definition p_term : R :=
  if Rlt_dec 0 (fbk.psi_R out)
  then - gain_full.alpha_o gain * L_sgm par * imag err_i_s / fbk.psi_R out
  else 0.

(** The speed estimate of the PI-type adaptation: the local [w_m]. *)
Definition w_m : R := p_term + fbk.w_m out.

Definition den : R :=
  FullOrderObserver.den_of par (fbk.psi_R out) err_i_s.

Definition num (k : complex) : R :=
  FullOrderObserver.num_of par gain (fbk.i_s out) k err_i_s.

Definition d_i_s : complex :=
  let R_sgm := R_s par + R_R par in
  Cdiv_real
    (FullOrderObserver.d_i_s_dividend par R_sgm (R_R par / L_M par)
       (fbk.u_s out)
       (FullOrderObserver.state.i_s (FullOrderObserver.state o))
       (fbk.psi_R out) (fbk.w_s out) w_m
       (FullOrderObserver.k_i_of par gain (fbk.w_s out) w_m R_sgm)
       err_i_s)
    (L_sgm par).

Definition d_psi_R (k : complex) : R :=
  FullOrderObserver.d_psi_R_of par gain (R_R par / L_M par) (fbk.psi_R out)
    (fbk.i_s out) k err_i_s (fbk.w_s out) w_m.

Definition d_w_m : R :=
  if Rlt_dec 0 (fbk.psi_R out)
  then - gain_full.alpha_o gain * gain_full.alpha_i gain * L_sgm par
       * imag err_i_s / fbk.psi_R out
  else 0.

End Call.
End FullOrderCall.

(** ** The feedback in flux coordinates *)

(** What the transformation to estimated rotor flux coordinates keeps: the
    vectors [i_s] and [u_s] of [fbk], turned back by [theta_s], are the
    measured [i_ss] and [u_ss]; the product [u_s * conj(i_s)] and the
    squared magnitude of the current are those of the stator coordinates. *)
Definition in_flux_coordinates (out : fbk.t) : Prop :=
  (Cexp (j * fbk.theta_s out) * fbk.i_s out)%C = fbk.i_ss out
  /\ (Cexp (j * fbk.theta_s out) * fbk.u_s out)%C = fbk.u_ss out
  /\ (fbk.u_s out * conj (fbk.i_s out))%C
     = (fbk.u_ss out * conj (fbk.i_ss out))%C
  /\ real (fbk.i_s out) * real (fbk.i_s out)
     + imag (fbk.i_s out) * imag (fbk.i_s out)
     = real (fbk.i_ss out) * real (fbk.i_ss out)
       + imag (fbk.i_ss out) * imag (fbk.i_ss out).

(** ** Sampling instants and sequences of calls *)

(** What the caller does at a sampling instant: [fbk = observer.output(fbk)],
    then [observer.update(T_s, fbk)]. *)
Definition Observer_cycle (T_s : R) (fbk0 : fbk.t)
  : M (World Observer.t) unit :=
  Observer.output fbk0 ≫= Observer.update T_s.

Definition FullOrderObserver_cycle (T_s : R) (fbk0 : fbk.t)
  : M (World FullOrderObserver.t) unit :=
  FullOrderObserver.output fbk0 ≫= FullOrderObserver.update T_s.

(** A call of a method of an observer, by its caller. *)
Inductive method_call : Type :=
| Output (fbk0 : fbk.t)
| Update (T_s : R) (fbk1 : fbk.t).

(** The objects after one call, whether it returned or raised, and after a
    sequence of calls, each made on what the one before left. *)
Definition Observer_call (c : method_call) (w : World Observer.t)
  : World Observer.t :=
  match c with
  | Output fbk0 => final (Observer.output fbk0 w)
  | Update T_s fbk1 => final (Observer.update T_s fbk1 w)
  end.

Definition Observer_calls (cs : list method_call) (w : World Observer.t)
  : World Observer.t :=
  fold_left (fun w c => Observer_call c w) cs w.

Definition FullOrderObserver_call (c : method_call)
    (w : World FullOrderObserver.t) : World FullOrderObserver.t :=
  match c with
  | Output fbk0 => final (FullOrderObserver.output fbk0 w)
  | Update T_s fbk1 => final (FullOrderObserver.update T_s fbk1 w)
  end.

Definition FullOrderObserver_calls (cs : list method_call)
    (w : World FullOrderObserver.t) : World FullOrderObserver.t :=
  fold_left (fun w c => FullOrderObserver_call c w) cs w.

(** What a call may change of a parameter record: nothing of the declared
    fields, and of the other attributes only [R_sgm] and [alpha], which it
    may add. *)
Definition frames (par par' : ModelPars) : Prop :=
  R_s par' = R_s par /\ R_R par' = R_R par /\ L_sgm par' = L_sgm par
  /\ L_M par' = L_M par /\ n_p par' = n_p par /\ J par' = J par
  /\ (forall name, name <> "R_sgm" -> name <> "alpha" ->
      attrs par' !! name = attrs par !! name)
  /\ fields par ⊆ fields par'
  /\ fields par' ⊆ fields par ∪ {[ "R_sgm"; "alpha" ]}.

(** ** The diode bridge *)

(** The output voltage of the diode bridge at [t], the local [u_di] of
    [FrequencyConverter.f]. *)
Definition u_di (conv : FrequencyConverter.t) (t : R) : R :=
  FrequencyConverter.amax (FrequencyConverter.grid_voltages conv t)
  - FrequencyConverter.amin (FrequencyConverter.grid_voltages conv t).

(** ** Examples *)

(** A machine with unit parameters, and the observers built for it with the
    default gains, a sampling period of 1 s and [alpha_o = 1] (for the
    full-order observer, [alpha_i = 2]). *)
Definition example_par : ModelPars := mkModelPars 1 1 1 1 1%Z 1 ∅.

Definition example_alpha : R := R_R example_par / L_M example_par.

Definition example_observer_par (sensorless : bool) : ObserverPars :=
  mkObserverPars example_par 1 sensorless
    (gain.mk 1 (if sensorless then default_k_o_sensorless example_alpha
                else default_k_o_sensored example_alpha)).

Definition example_observer (sensorless : bool) : World Observer.t :=
  Observer.init (example_observer_par sensorless).

Definition example_full_observer_par (sensorless : bool)
  : FullOrderObserverPars :=
  mkFullOrderObserverPars example_par 1 sensorless
    (gain_full.mk 1 (if sensorless then default_k_o_sensorless example_alpha
                     else default_k_o_sensored example_alpha)
                  2 (2 - example_alpha)).

Definition example_full_observer : World FullOrderObserver.t :=
  mkWorld example_par
    (FullOrderObserver.mk true (fop_gain (example_full_observer_par true))
       (FullOrderObserver.state.mk 0 0 0 0)
       (FullOrderObserver.work.mk 0 0 0)).

(** The example observers in a state with flux: [psi_R = 2] at the angle
    [theta_s = 0]; the full-order observer with the current estimate
    [i_s = 0] and the speed estimate [w_m = 3]. *)
Definition example_observer_with_flux : World Observer.t :=
  mkWorld example_par
    (Observer.mk true 1 (op_gain (example_observer_par true))
       (Observer.state.mk 2 0 0)
       (Observer.work.mk 0 0 0)).

Definition example_full_observer_with_flux : World FullOrderObserver.t :=
  mkWorld example_par
    (FullOrderObserver.mk true (fop_gain (example_full_observer_par true))
       (FullOrderObserver.state.mk 2 0 0 3)
       (FullOrderObserver.work.mk 0 0 0)).

(** The feedback object the caller passes: the measured [u_ss], [i_ss] and
    [w_m]; the other attributes are still to be assigned. *)
Definition measured (u_ss i_ss : complex) (w_m : R) : fbk.t :=
  fbk.mk u_ss i_ss w_m 0 0 0 0 0 0 0.

(** * Reasoning about runs *)

Section PostRules.
Context {S A : Type}.
Implicit Types (s : S) (Q : result A -> S -> list div_event -> Prop).

Lemma post_outcome (m : M S A) s (P : Outcome S A -> Prop) :
  post m s (fun v s' tr => P (mkOutcome v s' tr)) -> P (m s).
Proof. unfold post. destruct (m s); auto. Qed.

Lemma post_ret a s Q : Q (Ok a) s [] -> post (mret a) s Q.
Proof. auto. Qed.

Lemma post_raise e s Q : Q (Raise e) s [] -> post (raise e) s Q.
Proof. auto. Qed.

Lemma post_call (r : result A) s Q :
  (forall a, r = Ok a -> Q (Ok a) s []) ->
  (forall e, r = Raise e -> Q (Raise e) s []) ->
  post (call r) s Q.
Proof. unfold post, call. destruct r; auto. Qed.

Lemma post_if_Rlt (a b : R) (m1 m2 : M S A) s Q :
  (a < b -> post m1 s Q) -> (~ a < b -> post m2 s Q) ->
  post (if Rlt_dec a b then m1 else m2) s Q.
Proof. destruct (Rlt_dec a b); auto. Qed.

Lemma post_bind {B} (m : M S B) (f : B -> M S A) s Q :
  post m s (fun v s' tr =>
    match v with
    | Ok b => post (f b) s' (fun v' s'' tr' => Q v' s'' (tr ++ tr'))
    | Raise e => Q (Raise e) s' tr
    end) ->
  post (m ≫= f) s Q.
Proof.
  unfold post, mbind, M_bind, bind.
  destruct (m s) as [[b|e] s' tr]; auto. destruct (f b s'); auto.
Qed.
End PostRules.

Lemma post_get {S} (s : S) Q : Q (Ok s) s [] -> post get s Q.
Proof. auto. Qed.

Lemma post_modify {S} (f : S -> S) s Q :
  Q (Ok tt) (f s) [] -> post (modify f) s Q.
Proof. auto. Qed.

Lemma post_rdiv {S} at_ x y (s : S) Q :
  (y = 0 -> Q (Raise ZeroDivisionError) s [Div at_ y]) ->
  (y <> 0 -> Q (Ok (x / y)) s [Div at_ y]) ->
  post (rdiv at_ x y) s Q.
Proof. unfold post, rdiv, div. destruct (Req_dec_T y 0); auto. Qed.

Lemma post_cdiv_real {S} at_ z y (s : S) Q :
  (y = 0 -> Q (Raise ZeroDivisionError) s [Div at_ y]) ->
  (y <> 0 -> Q (Ok (Cdiv_real z y)) s [Div at_ y]) ->
  post (cdiv_real at_ z y) s Q.
Proof.
  unfold post, cdiv_real, div_complex. destruct (Req_dec_T y 0); auto.
Qed.

Lemma post_getattr {S} par name (s : S) Q :
  (forall v, attrs par !! name = Some v -> Q (Ok v) s []) ->
  (attrs par !! name = None -> Q (Raise AttributeError) s []) ->
  post (getattr par name) s Q.
Proof.
  unfold getattr. destruct (attrs par !! name); intros HS HN;
    [apply post_ret | apply post_raise]; auto.
Qed.

(** A lookup of an attribute in a record whose assignments are explicit. *)
Ltac attr_lookup H :=
  unfold FullOrderObserver.set_par, FullOrderObserver.set_work, setattr in H;
  cbn [model_par self attrs] in H;
  repeat first [ rewrite lookup_insert_eq in H
               | rewrite lookup_insert_ne in H by done ];
  first [ discriminate H | injection H as <- | idtac ].

(** A case that the facts collected so far exclude. *)
Ltac absurd_case :=
  try solve [ exfalso; first [ contradiction | lra | congruence ] ].

(** A function called a second time on the same argument returns what it
    returned the first time. *)
Ltac same_call E :=
  match type of E with
  | ?r = _ =>
      match goal with
      | E0 : r = _ |- _ =>
          rewrite E0 in E;
          first [ discriminate E | injection E as <- ]
      end
  end.

(** One statement of a method. *)
Ltac run_step :=
  cbn beta iota zeta;
  lazymatch goal with
  | |- post (_ ≫= _) _ _ => apply post_bind
  | |- post (mret _) _ _ => apply post_ret
  | |- post get _ _ => apply post_get
  | |- post (modify _) _ _ => apply post_modify
  | |- post (raise _) _ _ => apply post_raise
  | |- post (call _) _ _ =>
      apply post_call;
      [ let a := fresh "k" in
        let E := fresh "Ecall" in
        intros a E;
        first [ same_call E
              | lazymatch type of a with
                | prod _ _ => destruct a as [? ?]
                | _ => idtac
                end ]
      | let e := fresh "e" in
        let E := fresh "Ecall" in
        intros e E; try same_call E ]
  | |- post (rdiv _ _ _) _ _ => apply post_rdiv; intros ?; absurd_case
  | |- post (cdiv_real _ _ _) _ _ =>
      apply post_cdiv_real; intros ?; absurd_case
  | |- post (getattr _ _) _ _ =>
      apply post_getattr;
      [ let v := fresh "v" in
        let E := fresh "Eattr" in
        intros v E; attr_lookup E
      | let E := fresh "Eattr" in
        intros E; attr_lookup E ]
  | |- post (if Rlt_dec _ _ then _ else _) _ _ =>
      apply post_if_Rlt; intros ?; absurd_case
  | |- post (FullOrderObserver.par_attr _) _ _ =>
      unfold FullOrderObserver.par_attr
  end.

(** The whole run of the method call [m] (a term [method args s]). *)
Ltac run m :=
  pattern m; apply post_outcome;
  unfold Observer.output, Observer.update, FullOrderObserver.output,
         FullOrderObserver.update, FrequencyConverter.f;
  repeat run_step; cbn beta; cbn [app value final divisions].

(** * Facts about the helpers *)

Lemma complex_eq (z w : complex) :
  real z = real w -> imag z = imag w -> z = w.
Proof. destruct z, w; simpl; intros -> ->; reflexivity. Qed.

Lemma wrap_range theta : - PI < wrap theta <= PI.
Proof.
  unfold wrap.
  pose proof PI_RGT_0 as Hpi.
  destruct (base_Int_part ((PI - theta) / (2 * PI))) as [Hle Hgt].
  set (k := IZR (Int_part ((PI - theta) / (2 * PI)))) in *.
  assert (Hx : (PI - theta) / (2 * PI) * (2 * PI) = PI - theta)
    by (field; lra).
  split; nra.
Qed.

Lemma wrap_turns theta : exists k : Z, wrap theta = theta + 2 * PI * IZR k.
Proof. unfold wrap. eauto. Qed.

Lemma wrap_id theta : - PI < theta <= PI -> wrap theta = theta.
Proof.
  intros [Hlo Hhi]. unfold wrap.
  pose proof PI_RGT_0 as Hpi.
  assert (Hk : Int_part ((PI - theta) / (2 * PI)) = 0%Z).
  { symmetry. apply Int_part_spec.
    assert (Hx : (PI - theta) / (2 * PI) * (2 * PI) = PI - theta)
      by (field; lra).
    simpl. split; nra. }
  rewrite Hk. simpl. lra.
Qed.

(** At angle 0 the flux coordinates are the stator coordinates. *)
Lemma rotate_0 z : rotate 0 z = z.
Proof.
  destruct z as [a b].
  unfold rotate, Cexp, Cmul, Copp, j, RtoC. cbn [real imag].
  replace (- 0 * 0 - - (1) * 0) with 0 by ring.
  replace (- 0 * 0 + - (1) * 0) with 0 by ring.
  rewrite exp_0, cos_0, sin_0. f_equal; ring.
Qed.

(** The default gains divide by [alpha - 1j*w_m], which is not zero when
    [alpha] is not. *)
Lemma cdiv_Ok (z w : complex) :
  real w <> 0 ->
  exists q, cdiv z w = Ok q.
Proof.
  intros Hw. unfold cdiv.
  destruct (Req_dec_T _ _) as [E|E]; [exfalso; nra | eauto].
Qed.

Lemma default_k_o_sensorless_returns alpha :
  alpha <> 0 -> returns (default_k_o_sensorless alpha).
Proof. intros Ha w_m. apply cdiv_Ok. cbn. lra. Qed.

Lemma default_k_o_sensored_returns alpha :
  alpha <> 0 -> returns (default_k_o_sensored alpha).
Proof.
  intros Ha w_m. unfold default_k_o_sensored.
  destruct (cdiv_Ok (RtoC (2 / 10 * Rabs w_m)) (alpha - j * w_m)%C) as [q Hq].
  - cbn. lra.
  - rewrite Hq. cbn. eauto.
Qed.

Lemma ObserverPars_init_default (model_par : ModelPars) T_s sensorless
    alpha_o :
  L_M model_par <> 0 ->
  ObserverPars_init model_par T_s sensorless alpha_o None
  = Ok (mkObserverPars model_par T_s sensorless
          (gain.mk alpha_o
             (if sensorless
              then default_k_o_sensorless (R_R model_par / L_M model_par)
              else default_k_o_sensored (R_R model_par / L_M model_par)))).
Proof.
  intros HL. unfold ObserverPars_init, div.
  destruct (Req_dec_T (L_M model_par) 0) as [|_]; [contradiction|].
  destruct sensorless; reflexivity.
Qed.

(** * One call of [Observer.output] *)

Ltac unfold_call :=
  unfold ObserverCall.den, ObserverCall.num, ObserverCall.v,
         ObserverCall.v_s, ObserverCall.v_r;
  cbn [fbk.u_ss fbk.i_ss fbk.w_m fbk.psi_R fbk.theta_s fbk.i_s fbk.u_s
       fbk.psi_s fbk.w_s fbk.w_r].

Ltac case_guards :=
  repeat match goal with
         | |- context [Rlt_dec ?a ?b] =>
             destruct (Rlt_dec a b); [|]; absurd_case
         end.

Lemma Observer_output_Ok (w : World Observer.t) (fbk0 out : fbk.t) :
  let o := Observer.output fbk0 w in
  value o = Ok out ->
  let s := self w in
  let par := model_par w in
  Observer.T_s s <> 0 /\ L_M par <> 0 /\
  exists k_o1 k_o2,
    Observer.gains s (fbk.w_m out) = Ok (k_o1, k_o2) /\
    let den := ObserverCall.den w out k_o1 k_o2 in
    let num := ObserverCall.num w out k_o1 k_o2 in
    fbk.u_ss out = fbk.u_ss fbk0 /\
    fbk.i_ss out = fbk.i_ss fbk0 /\
    fbk.psi_R out = Observer.state.psi_R (Observer.state s) /\
    fbk.theta_s out = Observer.state.theta_s (Observer.state s) /\
    fbk.w_m out = (if Observer.sensorless s
                   then Observer.state.w_m (Observer.state s)
                   else fbk.w_m fbk0) /\
    fbk.i_s out = rotate (fbk.theta_s out) (fbk.i_ss fbk0) /\
    fbk.u_s out = rotate (fbk.theta_s out) (fbk.u_ss fbk0) /\
    fbk.psi_s out = (L_sgm par * fbk.i_s out + fbk.psi_R out)%C /\
    fbk.w_s out = (if Rlt_dec 0 den then num / den else fbk.w_m out) /\
    fbk.w_r out = (if Rlt_dec 0 (fbk.psi_R out)
                   then R_R par * imag (fbk.i_s out) / fbk.psi_R out
                   else 0) /\
    divisions o =
      [Div "d_i_s" (Observer.T_s s); Div "v_r" (L_M par)]
      ++ (if Rlt_dec 0 den then [Div "w_s" den] else [])
      ++ (if Rlt_dec 0 (fbk.psi_R out) then [Div "w_r" (fbk.psi_R out)]
          else []) /\
    final o =
      mkWorld par
        (Observer.mk (Observer.sensorless s) (Observer.T_s s)
           (Observer.gain s) (Observer.state s)
           (Observer.work.mk
              (Observer.d_psi_R_of (ObserverCall.v w out)
                 (ObserverCall.v_r w out) k_o1 k_o2)
              (gain.alpha_o (Observer.gain s)
               * (fbk.w_s out - fbk.w_r out - fbk.w_m out))
              (Observer.work.old_i_s (Observer._work s)))).
Proof.
  intros o. subst o.
  run (Observer.output fbk0 w).
  all: intros Hv; try discriminate Hv.
  all: injection Hv as <-.
  all: split; [assumption|]; split; [assumption|].
  all: eexists _, _; split; [eassumption|].
  all: unfold_call; case_guards.
  all: repeat split; reflexivity.
Qed.

Lemma Observer_gains_return (o : Observer.t) (w_m : R) :
  returns (gain.k_o (Observer.gain o)) ->
  exists k_o1 k_o2, Observer.gains o w_m = Ok (k_o1, k_o2).
Proof.
  intros Hk. destruct (Hk w_m) as [k E]. unfold Observer.gains.
  destruct (Observer.sensorless o); rewrite E; cbn; eauto.
Qed.

Lemma Observer_output_returns (w : World Observer.t) (fbk0 : fbk.t) :
  Observer.T_s (self w) <> 0 -> L_M (model_par w) <> 0 ->
  returns (gain.k_o (Observer.gain (self w))) ->
  exists out, value (Observer.output fbk0 w) = Ok out.
Proof.
  intros HT HL Hk.
  run (Observer.output fbk0 w); eauto.
  match goal with
  | E : Observer.gains ?o ?x = Raise _ |- _ =>
      destruct (Observer_gains_return o x Hk) as (k1 & k2 & E');
      rewrite E' in E; discriminate E
  end.
Qed.

(** The guarded divisions of [output], whatever the call ends with. *)
Lemma Observer_output_guards (w : World Observer.t) (fbk0 : fbk.t) :
  Forall (fun e => site e = "w_s" \/ site e = "w_r" -> 0 < denominator e)
         (divisions (Observer.output fbk0 w)).
Proof.
  run (Observer.output fbk0 w).
  all: repeat constructor; cbn [site denominator].
  all: intros [E|E]; first [ discriminate E | assumption ].
Qed.

Lemma Observer_output_positive (w : World Observer.t) (fbk0 : fbk.t) :
  0 < Observer.T_s (self w) -> 0 < L_M (model_par w) ->
  Forall (fun e => 0 < denominator e) (divisions (Observer.output fbk0 w)).
Proof.
  intros HT HL.
  run (Observer.output fbk0 w).
  all: repeat constructor; cbn [denominator]; assumption.
Qed.

(** [output] assigns to [self._work] only. *)
Lemma Observer_output_frame (w : World Observer.t) (fbk0 : fbk.t) :
  let w' := final (Observer.output fbk0 w) in
  model_par w' = model_par w
  /\ Observer.sensorless (self w') = Observer.sensorless (self w)
  /\ Observer.T_s (self w') = Observer.T_s (self w)
  /\ Observer.gain (self w') = Observer.gain (self w)
  /\ Observer.state (self w') = Observer.state (self w).
Proof.
  run (Observer.output fbk0 w).
  all: repeat split; reflexivity.
Qed.

(** * One call of [FullOrderObserver.output] *)

Ltac unfold_full_call :=
  unfold FullOrderCall.d_i_s, FullOrderCall.d_psi_R, FullOrderCall.d_w_m,
         FullOrderCall.den, FullOrderCall.num, FullOrderCall.w_m,
         FullOrderCall.p_term, FullOrderCall.err_i_s;
  cbn [fbk.u_ss fbk.i_ss fbk.w_m fbk.psi_R fbk.theta_s fbk.i_s fbk.u_s
       fbk.psi_s fbk.w_s fbk.w_r].

Lemma FullOrderObserver_output_Ok (w : World FullOrderObserver.t)
    (fbk0 out : fbk.t) :
  let o := FullOrderObserver.output fbk0 w in
  value o = Ok out ->
  let s := self w in
  let par := model_par w in
  let den := FullOrderCall.den w out in
  let w_m := FullOrderCall.w_m w out in
  L_M par <> 0 /\ L_sgm par <> 0 /\
  exists k,
    gain_full.k_o (FullOrderObserver.gain s) w_m = Ok k /\
    fbk.u_ss out = fbk.u_ss fbk0 /\
    fbk.i_ss out = fbk.i_ss fbk0 /\
    fbk.psi_R out
      = FullOrderObserver.state.psi_R (FullOrderObserver.state s) /\
    fbk.theta_s out
      = FullOrderObserver.state.theta_s (FullOrderObserver.state s) /\
    fbk.w_m out = FullOrderObserver.state.w_m (FullOrderObserver.state s) /\
    fbk.i_s out = rotate (fbk.theta_s out) (fbk.i_ss fbk0) /\
    fbk.u_s out = rotate (fbk.theta_s out) (fbk.u_ss fbk0) /\
    fbk.psi_s out
      = (L_sgm par * FullOrderObserver.state.i_s (FullOrderObserver.state s)
         + fbk.psi_R out)%C /\
    fbk.w_s out = (if Rlt_dec 0 den
                   then w_m + FullOrderCall.num w out k / den else w_m) /\
    fbk.w_r out = fbk.w_r fbk0 /\
    divisions o =
      [Div "alpha" (L_M par)]
      ++ (if Rlt_dec 0 (fbk.psi_R out) then [Div "p_term" (fbk.psi_R out)]
          else [])
      ++ (if Rlt_dec 0 den then [Div "w_s" den] else [])
      ++ [Div "d_i_s" (L_sgm par)]
      ++ (if Rlt_dec 0 (fbk.psi_R out) then [Div "d_w_m" (fbk.psi_R out)]
          else []) /\
    final o =
      mkWorld
        (setattr (setattr par "R_sgm" (R_s par + R_R par))
                 "alpha" (R_R par / L_M par))
        (FullOrderObserver.mk (FullOrderObserver.sensorless s)
           (FullOrderObserver.gain s) (FullOrderObserver.state s)
           (FullOrderObserver.work.mk (FullOrderCall.d_psi_R w out k)
              (FullOrderCall.d_i_s w out) (FullOrderCall.d_w_m w out))).
Proof.
  intros o. subst o.
  run (FullOrderObserver.output fbk0 w).
  all: intros Hv; try discriminate Hv.
  all: injection Hv as <-.
  all: unfold_full_call; case_guards.
  all: split; [assumption|]; split; [assumption|].
  all: eexists; split; [eassumption|].
  all: repeat split; reflexivity.
Qed.

Lemma FullOrderObserver_output_returns (w : World FullOrderObserver.t)
    (fbk0 : fbk.t) :
  L_M (model_par w) <> 0 -> L_sgm (model_par w) <> 0 ->
  returns (gain_full.k_o (FullOrderObserver.gain (self w))) ->
  exists out, value (FullOrderObserver.output fbk0 w) = Ok out.
Proof.
  intros HL Hs Hk.
  run (FullOrderObserver.output fbk0 w); eauto.
  all: match goal with
       | E : gain_full.k_o _ ?x = Raise _ |- _ =>
           destruct (Hk x) as [k E']; rewrite E' in E; discriminate E
       end.
Qed.

Lemma FullOrderObserver_output_guards (w : World FullOrderObserver.t)
    (fbk0 : fbk.t) :
  Forall (fun e => site e = "w_s" \/ site e = "p_term" \/ site e = "d_w_m"
                   -> 0 < denominator e)
         (divisions (FullOrderObserver.output fbk0 w)).
Proof.
  run (FullOrderObserver.output fbk0 w).
  all: repeat constructor; cbn [site denominator].
  all: intros [E|[E|E]]; first [ discriminate E | assumption ].
Qed.

Lemma FullOrderObserver_output_positive (w : World FullOrderObserver.t)
    (fbk0 : fbk.t) :
  0 < L_M (model_par w) -> 0 < L_sgm (model_par w) ->
  Forall (fun e => 0 < denominator e)
         (divisions (FullOrderObserver.output fbk0 w)).
Proof.
  intros HL Hs.
  run (FullOrderObserver.output fbk0 w).
  all: repeat constructor; cbn [denominator]; assumption.
Qed.

(** Of [self], [output] assigns to [self._work] only. *)
Lemma FullOrderObserver_output_frame (w : World FullOrderObserver.t)
    (fbk0 : fbk.t) :
  let w' := final (FullOrderObserver.output fbk0 w) in
  FullOrderObserver.sensorless (self w')
    = FullOrderObserver.sensorless (self w)
  /\ FullOrderObserver.gain (self w') = FullOrderObserver.gain (self w)
  /\ FullOrderObserver.state (self w') = FullOrderObserver.state (self w).
Proof.
  run (FullOrderObserver.output fbk0 w).
  all: repeat split; reflexivity.
Qed.

(** * The examples *)

Lemma example_alpha_1 : example_alpha = 1.
Proof. unfold example_alpha. cbn. field. Qed.

Lemma example_observer_par_init (sensorless : bool) :
  ObserverPars_init example_par 1 sensorless 1 None
  = Ok (example_observer_par sensorless).
Proof. apply ObserverPars_init_default. cbn. lra. Qed.

Lemma example_full_observer_par_init (sensorless : bool) :
  FullOrderObserverPars_init example_par 1 sensorless 1 None 2
  = Ok (example_full_observer_par sensorless).
Proof.
  unfold FullOrderObserverPars_init.
  rewrite ObserverPars_init_default by (cbn; lra).
  cbn [mbind result_bind]. unfold div.
  destruct (Req_dec_T (L_M example_par) 0) as [E|_];
    [cbn in E; lra | reflexivity].
Qed.

Lemma example_gain_returns (sensorless : bool) :
  returns (if sensorless then default_k_o_sensorless example_alpha
           else default_k_o_sensored example_alpha).
Proof.
  destruct sensorless;
    [apply default_k_o_sensorless_returns | apply default_k_o_sensored_returns];
    rewrite example_alpha_1; lra.
Qed.

(** * The claims *)

(** C10.  The inverter model is lossless: for every switching-state vector
    [q], AC-side current [i_c] and DC-bus voltage [u_dc], the AC-side power
    [1.5 * Re(ac_voltage(q, u_dc) * conj(i_c))] equals the DC-side power
    [u_dc * dc_current(q, i_c)] (in exact real arithmetic). *)
Theorem inverter_power_balance (q i_c : complex) (u_dc : R) :
  15 / 10 * real (Inverter.ac_voltage q u_dc * conj i_c)%C
  = u_dc * Inverter.dc_current q i_c.
Proof.
  unfold Inverter.ac_voltage, Inverter.dc_current.
  destruct q as [qr qi], i_c as [ir ii]. cbn. ring.
Qed.

Lemma Forall_In {A} (P : A -> Prop) (l : list A) (x : A) :
  Forall P l -> In x l -> P x.
Proof.
  induction 1 as [|y l Hy _ IH]; cbn [In]; [tauto|].
  intros [<-|Hx]; auto.
Qed.

Ltac find_division :=
  cbn [app In];
  repeat match goal with
         | H : _ \/ _ |- _ => destruct H as [H|H]
         | H : False |- _ => destruct H
         | H : Div _ _ = Div _ _ |- _ =>
             first [ discriminate H | injection H as <- ]
         | H : In _ (if Rlt_dec ?a ?b then _ else _) |- _ =>
             destruct (Rlt_dec a b); cbn [In] in H
         | H : In _ (_ ++ _) |- _ => apply in_app_iff in H
         | H : In _ (_ :: _) |- _ => cbn [In] in H
         | H : In _ [] |- _ => destruct H
         end.

(** C1, as amended.  In [output] of both observers the division that
    computes [w_s] is guarded: whatever the call ends with, every division
    executed at the assignment of [w_s] has a strictly positive denominator.
    When the call returns, the quantities it works with are those of the
    observer's state and of the measurements ([psi_R], [theta_s] and the
    speed of the state, or the measured speed in the sensored mode; [i_s]
    and [u_s] the measured vectors turned by [theta_s]), and with the
    denominator [den] computed from them: if [0 < den], [w_s] is the
    quotient, and that division is executed; if [den <= 0], no division is
    executed there, and [w_s] is exactly
    - the speed estimate [fbk.w_m], for the reduced-order observer;
    - the speed [w_m = p_term + self.state.w_m] of the PI-type adaptation,
      for the full-order observer: this is the speed estimate
      [self.state.w_m] that [output] reports when [psi_R <= 0], and differs
      from it by [p_term = -alpha_o*L_sgm*Im(err_i_s)/psi_R] otherwise.
    The call returns, and every division it executes has a strictly positive
    denominator, when the gain function returns and [T_s] and [L_M] (for the
    full-order observer: [L_M] and [L_sgm]) are positive. *)
Theorem w_s_division_guarded :
  (forall (w : World Observer.t) (fbk0 : fbk.t),
     let o := Observer.output fbk0 w in
     let s := self w in
     (forall d, In (Div "w_s" d) (divisions o) -> 0 < d)
     /\ (forall out, value o = Ok out ->
           fbk.psi_R out = Observer.state.psi_R (Observer.state s)
           /\ fbk.theta_s out = Observer.state.theta_s (Observer.state s)
           /\ fbk.w_m out = (if Observer.sensorless s
                             then Observer.state.w_m (Observer.state s)
                             else fbk.w_m fbk0)
           /\ fbk.i_s out = rotate (fbk.theta_s out) (fbk.i_ss fbk0)
           /\ fbk.u_s out = rotate (fbk.theta_s out) (fbk.u_ss fbk0)
           /\ exists k_o1 k_o2,
                Observer.gains s (fbk.w_m out) = Ok (k_o1, k_o2)
                /\ let den := ObserverCall.den w out k_o1 k_o2 in
                   (0 < den ->
                      fbk.w_s out = ObserverCall.num w out k_o1 k_o2 / den
                      /\ In (Div "w_s" den) (divisions o))
                   /\ (den <= 0 ->
                         fbk.w_s out = fbk.w_m out
                         /\ forall d, ~ In (Div "w_s" d) (divisions o)))
     /\ (0 < Observer.T_s s -> 0 < L_M (model_par w) ->
         returns (gain.k_o (Observer.gain s)) ->
         (exists out, value o = Ok out)
         /\ Forall (fun e => 0 < denominator e) (divisions o)))
  /\
  (forall (w : World FullOrderObserver.t) (fbk0 : fbk.t),
     let o := FullOrderObserver.output fbk0 w in
     let s := self w in
     let st := FullOrderObserver.state s in
     (forall d, In (Div "w_s" d) (divisions o) -> 0 < d)
     /\ (forall out, value o = Ok out ->
           let den := FullOrderCall.den w out in
           let p_term := FullOrderCall.p_term w out in
           let w_m := FullOrderCall.w_m w out in
           fbk.psi_R out = FullOrderObserver.state.psi_R st
           /\ fbk.theta_s out = FullOrderObserver.state.theta_s st
           /\ fbk.w_m out = FullOrderObserver.state.w_m st
           /\ fbk.i_s out = rotate (fbk.theta_s out) (fbk.i_ss fbk0)
           /\ fbk.u_s out = rotate (fbk.theta_s out) (fbk.u_ss fbk0)
           /\ w_m = p_term + FullOrderObserver.state.w_m st
           /\ (fbk.psi_R out <= 0 -> w_m = fbk.w_m out)
           /\ exists k,
                gain_full.k_o (FullOrderObserver.gain s) w_m = Ok k
                /\ (0 < den ->
                      fbk.w_s out = w_m + FullOrderCall.num w out k / den
                      /\ In (Div "w_s" den) (divisions o))
                /\ (den <= 0 ->
                      fbk.w_s out = w_m
                      /\ fbk.w_s out - fbk.w_m out = p_term
                      /\ forall d, ~ In (Div "w_s" d) (divisions o)))
     /\ (0 < L_M (model_par w) -> 0 < L_sgm (model_par w) ->
         returns (gain_full.k_o (FullOrderObserver.gain s)) ->
         (exists out, value o = Ok out)
         /\ Forall (fun e => 0 < denominator e) (divisions o))).
Proof.
  split; intros w fbk0 o s; subst o s.
  - split; [|split].
    + intros d Hd.
      apply (Forall_In _ _ _ (Observer_output_guards w fbk0) Hd). now left.
    + intros out Hout.
      destruct (Observer_output_Ok w fbk0 out Hout)
        as (_ & _ & k1 & k2 & Hg & _ & _ & Hpsi & Hth & Hwm & His & Hus & _
            & Hws & _ & Htr & _).
      cbn zeta in *.
      do 5 (split; [assumption|]).
      exists k1, k2. split; [exact Hg|].
      rewrite Hws, Htr.
      destruct (Rlt_dec 0 (ObserverCall.den w out k1 k2)) as [Hden|Hden].
      * split; [intros _; split; [reflexivity | cbn; tauto] | intros; lra].
      * split; [intros; lra|]. intros _. split; [reflexivity|].
        intros d Hd. find_division.
    + intros HT HL Hk. split.
      * apply Observer_output_returns; [lra | lra | exact Hk].
      * apply Observer_output_positive; assumption.
  - intros st. subst st. split; [|split].
    + intros d Hd.
      apply (Forall_In _ _ _ (FullOrderObserver_output_guards w fbk0) Hd).
      now left.
    + intros out Hout.
      destruct (FullOrderObserver_output_Ok w fbk0 out Hout)
        as (_ & _ & k & Hk & _ & _ & Hpsi & Hth & Hwm & His & Hus & _
            & Hws & _ & Htr & _).
      cbn zeta in *.
      do 5 (split; [assumption|]).
      assert (Hlocal : FullOrderCall.w_m w out
                       = FullOrderCall.p_term w out + fbk.w_m out)
        by reflexivity.
      split; [rewrite <- Hwm; exact Hlocal|].
      split.
      { intros Hle. rewrite Hlocal. unfold FullOrderCall.p_term.
        destruct (Rlt_dec 0 (fbk.psi_R out)); lra. }
      exists k. split; [exact Hk|].
      rewrite Hws, Htr.
      destruct (Rlt_dec 0 (FullOrderCall.den w out)) as [Hden|Hden].
      * split; [|intros; lra].
        intros _. split; [reflexivity|].
        destruct (Rlt_dec 0 (fbk.psi_R out)); cbn; tauto.
      * split; [intros; lra|].
        intros _. split; [reflexivity|]. split; [rewrite Hlocal; ring|].
        intros d Hd. find_division.
    + intros HL Hs Hk. split.
      * apply FullOrderObserver_output_returns; [lra | lra | exact Hk].
      * apply FullOrderObserver_output_positive; assumption.
Qed.

(** The division at the assignment of [w_r] is by [psi_R], and it is
    executed only when [psi_R] is positive. *)
Lemma Observer_output_w_r_divisions (w : World Observer.t) (fbk0 : fbk.t) :
  let psi_R := Observer.state.psi_R (Observer.state (self w)) in
  Forall (fun e => site e = "w_r" -> denominator e = psi_R /\ 0 < psi_R)
         (divisions (Observer.output fbk0 w)).
Proof.
  run (Observer.output fbk0 w).
  all: repeat first [ apply List.Forall_nil | apply List.Forall_cons ];
       cbn [site denominator].
  all: intros E; first [ discriminate E | split; [reflexivity | assumption] ].
Qed.

(** C2.  For every call of the reduced-order [Observer.output] that returns,
    with [psi_R] the flux magnitude estimate of the state and [i_s] the
    measured current [i_ss] turned by the flux angle [theta_s] of the state
    (these are the [psi_R], [theta_s] and [i_s] the call reports): the slip
    frequency is [w_r = R_R * Im(i_s) / psi_R] when [psi_R] is strictly
    positive, and that division is executed; it is exactly [0] when
    [psi_R <= 0], and no division is then executed at the assignment of
    [w_r] (a division there is always by a positive [psi_R]).  The call
    returns when the sampling period and [L_M] are positive and the gain
    function returns. *)
Theorem slip_frequency_guarded (w : World Observer.t) (fbk0 : fbk.t) :
  let o := Observer.output fbk0 w in
  let psi_R := Observer.state.psi_R (Observer.state (self w)) in
  let theta_s := Observer.state.theta_s (Observer.state (self w)) in
  let i_s := rotate theta_s (fbk.i_ss fbk0) in
  (forall out, value o = Ok out ->
     fbk.psi_R out = psi_R /\ fbk.theta_s out = theta_s
     /\ fbk.i_s out = i_s
     /\ (0 < psi_R ->
         fbk.w_r out = R_R (model_par w) * imag i_s / psi_R
         /\ In (Div "w_r" psi_R) (divisions o))
     /\ (psi_R <= 0 -> fbk.w_r out = 0))
  /\ (forall d, In (Div "w_r" d) (divisions o) -> d = psi_R /\ 0 < psi_R)
  /\ (psi_R <= 0 -> forall d, ~ In (Div "w_r" d) (divisions o))
  /\ (0 < Observer.T_s (self w) -> 0 < L_M (model_par w) ->
      returns (gain.k_o (Observer.gain (self w))) ->
      exists out, value o = Ok out).
Proof.
  intros o psi_R theta_s i_s. subst o psi_R theta_s i_s.
  assert (Hdiv : forall d,
             In (Div "w_r" d) (divisions (Observer.output fbk0 w)) ->
             d = Observer.state.psi_R (Observer.state (self w))
             /\ 0 < Observer.state.psi_R (Observer.state (self w))).
  { intros d Hd.
    apply (Forall_In _ _ _ (Observer_output_w_r_divisions w fbk0) Hd).
    reflexivity. }
  split; [|split; [exact Hdiv | split]].
  - intros out Hout.
    destruct (Observer_output_Ok w fbk0 out Hout)
      as (_ & _ & k1 & k2 & _ & _ & _ & Hpsi & Hth & _ & His & _ & _
          & _ & Hwr & Htr & _).
    cbn zeta in *.
    split; [exact Hpsi|]. split; [exact Hth|].
    rewrite Hth in His. split; [exact His|].
    rewrite Hpsi, His in Hwr. rewrite Hpsi in Htr. rewrite Hwr, Htr.
    destruct (Rlt_dec 0 (Observer.state.psi_R (Observer.state (self w))));
      split; intros; first [ lra | reflexivity | idtac ].
    split; [reflexivity|].
    apply in_or_app. right. apply in_or_app. right. left. reflexivity.
  - intros Hpsi d Hd. destruct (Hdiv d Hd) as [_ Hpos]. lra.
  - intros HT HL Hk. apply Observer_output_returns; [lra | lra | exact Hk].
Qed.

(** A call of the sensorless example observer in its initial state, with
    [u_ss = 1j] and [i_ss = 1]. *)
Ltac calc :=
  unfold Observer.den_of, Observer.num_of, Observer.v_s_of, Observer.v_r_of,
         Observer.d_psi_R_of, Cdiv_real, Cadd, Csub, Cmul, Copp, conj, RtoC, j;
  cbn [real imag].

Lemma default_k_o_sensorless_0 alpha :
  alpha <> 0 -> default_k_o_sensorless alpha 0 = Ok (RtoC (1 / 2)).
Proof.
  intros Ha. unfold default_k_o_sensorless, cdiv. calc.
  destruct (Req_dec_T _ _) as [E|E]; [exfalso; nra|].
  f_equal. rewrite Rabs_R0. apply complex_eq; cbn [real imag]; field; nra.
Qed.

(** What [output] returns to the sensorless example observer in its initial
    state: the flux and the angle are 0, so the vectors are not rotated, and
    both gains are 1/2. *)
Lemma example_output_initial (u_ss i_ss : complex) (out : fbk.t) :
  let w := example_observer true in
  value (Observer.output (measured u_ss i_ss 0) w) = Ok out ->
  fbk.psi_R out = 0 /\ fbk.w_m out = 0
  /\ fbk.i_s out = i_ss /\ fbk.u_s out = u_ss
  /\ let k := RtoC (1 / 2) in
     fbk.w_s out = (if Rlt_dec 0 (ObserverCall.den w out k k)
                    then ObserverCall.num w out k k / ObserverCall.den w out k k
                    else 0)
     /\ Observer.work.d_psi_R
          (Observer._work (self (final (Observer.output (measured u_ss i_ss 0)
                                                        w))))
        = Observer.d_psi_R_of (ObserverCall.v w out) (ObserverCall.v_r w out)
                              k k.
Proof.
  intros w Hout.
  destruct (Observer_output_Ok _ _ _ Hout)
    as (_ & _ & k1 & k2 & Hg & _ & _ & Hpsi & Hth & Hwm & His & Hus & _
        & Hws & _ & _ & Hfin).
  cbn in Hpsi, Hth, Hwm. rewrite Hth, rotate_0 in His, Hus.
  cbn in His, Hus.
  rewrite Hwm in Hg. unfold Observer.gains in Hg. cbn in Hg.
  rewrite default_k_o_sensorless_0 in Hg by (rewrite example_alpha_1; lra).
  cbn in Hg. injection Hg as <- <-.
  cbn zeta in Hws. rewrite Hwm in Hws.
  repeat split; try assumption.
  rewrite Hfin. reflexivity.
Qed.

(** The quantities of a call of the example observer, as real numbers. *)
Ltac example_call Hpsi Hwm His Hus :=
  unfold ObserverCall.den, ObserverCall.num, ObserverCall.v,
         ObserverCall.v_s, ObserverCall.v_r;
  rewrite ?Hpsi, ?Hwm, ?His, ?Hus;
  cbn [example_observer example_observer_par Observer.init model_par self
       op_model_par op_T_s op_sensorless op_gain Observer.T_s Observer._work
       Observer.work.old_i_s];
  calc; unfold example_par; cbn [R_s R_R L_sgm L_M].

(** C3, refuted as stated: the sensorless example observer in its initial
    state has [psi_R = 0], and a call with [u_ss = 1j], [i_ss = 1] returns
    [w_s = 1] while the speed estimate is [w_m = 0]: the denominator is
    [L_sgm * Re(i_s) = 1 > 0], so the quotient is taken. *)
Lemma w_s_differs_from_w_m_at_zero_flux :
  exists out,
    value (Observer.output (measured j 1 0) (example_observer true)) = Ok out
    /\ fbk.psi_R out <= 0
    /\ fbk.w_m out = 0
    /\ fbk.w_s out = 1
    /\ fbk.w_s out <> fbk.w_m out.
Proof.
  destruct (Observer_output_returns (example_observer true) (measured j 1 0))
    as [out Hout];
    [cbn; lra | cbn; lra | apply (example_gain_returns true) |].
  exists out. split; [exact Hout|].
  destruct (example_output_initial _ _ _ Hout)
    as (Hpsi & Hwm & His & Hus & Hws & _).
  assert (Hone : fbk.w_s out = 1).
  { rewrite Hws. clear Hws. example_call Hpsi Hwm His Hus.
    destruct (Rlt_dec _ _) as [H|H]; [field_simplify; lra | exfalso; lra]. }
  rewrite Hone, Hwm, Hpsi. repeat split; lra.
Qed.

(** C3, as amended.  For every call of the reduced-order [Observer.output]
    that returns, the coordinate-system frequency [w_s] equals the speed
    estimate [w_m] whenever the frequency-solving denominator
    [den = psi_R + L_sgm*Re((1 - k_o1)*i_s + k_o2*conj(i_s))] is not
    positive, that is, with [psi_R <= 0], whenever
    [L_sgm*Re((1 - k_o1)*i_s + k_o2*conj(i_s)) <= -psi_R]; when [den] is
    positive, [w_s] is the quotient [num/den], also for [psi_R <= 0]. *)
Theorem w_s_fallback_on_denominator (w : World Observer.t)
    (fbk0 out : fbk.t) :
  value (Observer.output fbk0 w) = Ok out ->
  exists k_o1 k_o2,
    Observer.gains (self w) (fbk.w_m out) = Ok (k_o1, k_o2)
    /\ let correction :=
         L_sgm (model_par w)
         * real ((1 - k_o1) * fbk.i_s out + k_o2 * conj (fbk.i_s out))%C in
       let den := ObserverCall.den w out k_o1 k_o2 in
       den = fbk.psi_R out + correction
       /\ (den <= 0 -> fbk.w_s out = fbk.w_m out)
       /\ (fbk.psi_R out <= 0 -> correction <= - fbk.psi_R out ->
           fbk.w_s out = fbk.w_m out)
       /\ (0 < den ->
           fbk.w_s out = ObserverCall.num w out k_o1 k_o2 / den).
Proof.
  intros Hout.
  destruct (Observer_output_Ok w fbk0 out Hout)
    as (_ & _ & k1 & k2 & Hg & _ & _ & _ & _ & _ & _ & _ & _ & Hws & _).
  exists k1, k2. split; [exact Hg|]. cbn zeta in *.
  split; [reflexivity|].
  assert (Hfb : ObserverCall.den w out k1 k2 <= 0 ->
                fbk.w_s out = fbk.w_m out).
  { intros Hden. rewrite Hws.
    destruct (Rlt_dec 0 (ObserverCall.den w out k1 k2)); [lra | reflexivity]. }
  split; [exact Hfb|]. split.
  - intros _ Hc. apply Hfb. unfold ObserverCall.den, Observer.den_of. lra.
  - intros Hden. rewrite Hws.
    destruct (Rlt_dec 0 (ObserverCall.den w out k1 k2)); [reflexivity | lra].
Qed.

(** The amended C3 at work: the sensorless example observer in its initial
    state, called with [u_ss = 0] and [i_ss = -1], has [den = -1] and
    returns [w_s = w_m]. *)
Lemma w_s_fallback_on_denominator_witness :
  exists out,
    value (Observer.output (measured 0 (-1) 0) (example_observer true))
    = Ok out
    /\ fbk.w_s out = fbk.w_m out.
Proof.
  destruct (Observer_output_returns (example_observer true)
              (measured 0 (-1) 0))
    as [out Hout];
    [cbn; lra | cbn; lra | apply (example_gain_returns true) |].
  exists out. split; [exact Hout|].
  destruct (example_output_initial _ _ _ Hout)
    as (Hpsi & Hwm & His & _ & _ & _).
  destruct (w_s_fallback_on_denominator _ _ _ Hout)
    as (k1 & k2 & Hg & _ & Hfb & _).
  apply Hfb.
  rewrite Hwm in Hg. unfold Observer.gains in Hg. cbn in Hg.
  rewrite default_k_o_sensorless_0 in Hg by (rewrite example_alpha_1; lra).
  cbn in Hg. injection Hg as <- <-.
  example_call Hpsi Hwm His His. lra.
Defined.

(** C1, refuted as stated: the fallback of the full-order observer is not
    the speed estimate it holds and reports.  In the state [psi_R = 2],
    [i_s = 0], [theta_s = 0], [w_m = 3], a call with the measured current
    [i_ss = 3 + 1j] has the denominator
    [den = psi_R - L_sgm*Re(err_i_s) = -1], so the quotient is not taken;
    the call reports the speed estimate [fbk.w_m = self.state.w_m = 3] and
    sets [w_s = p_term + self.state.w_m = 5/2]. *)
Lemma full_order_fallback_is_not_the_speed_estimate :
  let w := example_full_observer_with_flux in
  exists out,
    value (FullOrderObserver.output (measured 0 (mkC 3 1) 0) w) = Ok out
    /\ FullOrderCall.den w out = -1
    /\ FullOrderObserver.state.w_m (FullOrderObserver.state (self w)) = 3
    /\ fbk.w_m out = 3
    /\ fbk.w_s out = 5 / 2
    /\ fbk.w_s out <> fbk.w_m out.
Proof.
  intros w. subst w.
  destruct (FullOrderObserver_output_returns example_full_observer_with_flux
              (measured 0 (mkC 3 1) 0))
    as [out Hout];
    [cbn; lra | cbn; lra | apply (example_gain_returns true) |].
  exists out. split; [exact Hout|].
  destruct (FullOrderObserver_output_Ok _ _ _ Hout)
    as (_ & _ & k & _ & _ & _ & Hpsi & Hth & Hwm & His & _ & _ & Hws & _).
  cbn zeta in Hws. cbn in Hpsi, Hth, Hwm.
  rewrite Hth, rotate_0 in His. cbn in His.
  assert (Hden : FullOrderCall.den example_full_observer_with_flux out = -1).
  { unfold FullOrderCall.den, FullOrderCall.err_i_s,
      FullOrderObserver.den_of.
    rewrite Hpsi, His. cbn. lra. }
  assert (Hlocal : FullOrderCall.w_m example_full_observer_with_flux out
                   = 5 / 2).
  { unfold FullOrderCall.w_m, FullOrderCall.p_term, FullOrderCall.err_i_s.
    rewrite Hpsi, Hwm, His. cbn.
    destruct (Rlt_dec 0 2) as [_|H]; [lra | exfalso; lra]. }
  rewrite Hden, Hlocal in Hws.
  destruct (Rlt_dec 0 (-1)) as [H|_]; [exfalso; lra|].
  rewrite Hws, Hwm. split_and!; try reflexivity; lra.
Qed.

(** The amended C1 at work.  The sensorless example observer in its initial
    state, called with [u_ss = 1j] and [i_ss = 1], has [den = 1]: the
    division is executed and [w_s] is the quotient, 1.  The full-order
    example observer with flux, called with [i_ss = 3 + 1j], has
    [den = -1]: no division is executed at [w_s], which is
    [p_term + self.state.w_m = -1/2 + 3]. *)
Lemma w_s_division_guarded_witness :
  (exists out,
     value (Observer.output (measured j 1 0) (example_observer true)) = Ok out
     /\ fbk.w_s out = 1
     /\ In (Div "w_s" 1)
           (divisions (Observer.output (measured j 1 0)
                                       (example_observer true))))
  /\ (exists out,
        value (FullOrderObserver.output (measured 0 (mkC 3 1) 0)
                 example_full_observer_with_flux) = Ok out
        /\ fbk.w_s out = - (1 / 2) + 3
        /\ forall d,
             ~ In (Div "w_s" d)
                  (divisions (FullOrderObserver.output
                                (measured 0 (mkC 3 1) 0)
                                example_full_observer_with_flux))).
Proof.
  split.
  - destruct (proj1 w_s_division_guarded (example_observer true)
                (measured j 1 0)) as (_ & Hcall & Htotal).
    destruct Htotal as [[out Hout] _];
      [cbn; lra | cbn; lra | apply (example_gain_returns true) |].
    exists out. split; [exact Hout|].
    destruct (Hcall out Hout)
      as (Hpsi & Hth & Hwm & His & Hus & k1 & k2 & Hg & Hquot & _).
    cbn in Hpsi, Hth, Hwm. rewrite Hth, rotate_0 in His, Hus.
    cbn in His, Hus.
    rewrite Hwm in Hg. unfold Observer.gains in Hg. cbn in Hg.
    rewrite default_k_o_sensorless_0 in Hg by (rewrite example_alpha_1; lra).
    cbn in Hg. injection Hg as <- <-.
    assert (Hden : ObserverCall.den (example_observer true) out
                     (RtoC (1 / 2)) (RtoC (1 / 2)) = 1).
    { example_call Hpsi Hwm His Hus. lra. }
    assert (Hnum : ObserverCall.num (example_observer true) out
                     (RtoC (1 / 2)) (RtoC (1 / 2)) = 1).
    { example_call Hpsi Hwm His Hus. lra. }
    rewrite Hden, Hnum in Hquot.
    destruct Hquot as [Hws Hin]; [lra|].
    split; [rewrite Hws; lra | exact Hin].
  - destruct (proj2 w_s_division_guarded example_full_observer_with_flux
                (measured 0 (mkC 3 1) 0)) as (_ & Hcall & Htotal).
    destruct Htotal as [[out Hout] _];
      [cbn; lra | cbn; lra | apply (example_gain_returns true) |].
    exists out. split; [exact Hout|].
    destruct (Hcall out Hout)
      as (Hpsi & Hth & Hwm & His & _ & Hlocal & _ & k & _ & _ & Hfall).
    cbn in Hpsi, Hth, Hwm. rewrite Hth, rotate_0 in His. cbn in His.
    assert (Hden : FullOrderCall.den example_full_observer_with_flux out
                   = -1).
    { unfold FullOrderCall.den, FullOrderCall.err_i_s,
        FullOrderObserver.den_of.
      rewrite Hpsi, His. cbn. lra. }
    assert (Hp : FullOrderCall.p_term example_full_observer_with_flux out
                 = - (1 / 2)).
    { unfold FullOrderCall.p_term, FullOrderCall.err_i_s.
      rewrite Hpsi, His. cbn.
      destruct (Rlt_dec 0 2) as [_|H]; [lra | exfalso; lra]. }
    destruct Hfall as (Hws & _ & Hno); [rewrite Hden; lra|].
    split; [|exact Hno].
    rewrite Hws, Hlocal, Hp. cbn. reflexivity.
Defined.

(** C2 at work on the sensorless example observer with flux ([psi_R = 2],
    [theta_s = 0]): with the measured current [i_ss = 1 + 2j] the slip
    frequency is [R_R*Im(i_s)/psi_R = 1*2/2], and the division by [psi_R]
    is executed. *)
Lemma slip_frequency_guarded_witness :
  exists out,
    value (Observer.output (measured 0 (mkC 1 2) 0)
             example_observer_with_flux) = Ok out
    /\ fbk.w_r out = 1
    /\ In (Div "w_r" 2)
          (divisions (Observer.output (measured 0 (mkC 1 2) 0)
                        example_observer_with_flux)).
Proof.
  destruct (slip_frequency_guarded example_observer_with_flux
              (measured 0 (mkC 1 2) 0))
    as (Hout & _ & _ & Htotal).
  destruct Htotal as [out Hv];
    [cbn; lra | cbn; lra | apply (example_gain_returns true) |].
  exists out. split; [exact Hv|].
  destruct (Hout out Hv) as (_ & _ & _ & Hquot & _).
  destruct Hquot as [Hwr Hin]; [cbn; lra|].
  split; [|exact Hin].
  rewrite Hwr. cbn [example_observer_with_flux self model_par example_par
                    Observer.state Observer.state.psi_R
                    Observer.state.theta_s R_R fbk.i_ss measured].
  rewrite rotate_0. cbn [imag]. lra.
Defined.

(** * One sampling instant: [output], then [update] *)

Lemma bind_Ok {S A B} (m : M S A) (f : A -> M S B) (s : S) (a : A) :
  value (m s) = Ok a ->
  (m ≫= f) s
  = mkOutcome (value (f a (final (m s)))) (final (f a (final (m s))))
              (divisions (m s) ++ divisions (f a (final (m s)))).
Proof.
  unfold mbind, M_bind, bind. destruct (m s) as [v s' tr]. cbn.
  intros ->. destruct (f a s'); reflexivity.
Qed.

Lemma bind_Raise {S A B} (m : M S A) (f : A -> M S B) (s : S) (e : exn) :
  value (m s) = Raise e ->
  (m ≫= f) s = mkOutcome (Raise e) (final (m s)) (divisions (m s)).
Proof.
  unfold mbind, M_bind, bind. destruct (m s) as [v s' tr]. cbn.
  intros ->. reflexivity.
Qed.

Lemma Observer_cycle_Ok (T_s : R) (fbk0 out : fbk.t) (w : World Observer.t) :
  value (Observer.output fbk0 w) = Ok out ->
  Observer_cycle T_s fbk0 w
  = mkOutcome (Ok tt)
      (final (Observer.update T_s out (final (Observer.output fbk0 w))))
      (divisions (Observer.output fbk0 w)).
Proof.
  intros Hout. unfold Observer_cycle. rewrite (bind_Ok _ _ _ _ Hout).
  cbn. rewrite app_nil_r. reflexivity.
Qed.

Lemma Observer_cycle_value (T_s : R) (fbk0 : fbk.t) (w : World Observer.t) :
  value (Observer_cycle T_s fbk0 w) = Ok tt ->
  exists out, value (Observer.output fbk0 w) = Ok out.
Proof.
  destruct (value (Observer.output fbk0 w)) as [out|e] eqn:E; [eauto|].
  unfold Observer_cycle. rewrite (bind_Raise _ _ _ _ E). discriminate.
Qed.

Lemma FullOrderObserver_cycle_Ok (T_s : R) (fbk0 out : fbk.t)
    (w : World FullOrderObserver.t) :
  value (FullOrderObserver.output fbk0 w) = Ok out ->
  FullOrderObserver_cycle T_s fbk0 w
  = mkOutcome (Ok tt)
      (final (FullOrderObserver.update T_s out
                (final (FullOrderObserver.output fbk0 w))))
      (divisions (FullOrderObserver.output fbk0 w)).
Proof.
  intros Hout. unfold FullOrderObserver_cycle.
  rewrite (bind_Ok _ _ _ _ Hout). cbn. rewrite app_nil_r. reflexivity.
Qed.

Lemma FullOrderObserver_cycle_value (T_s : R) (fbk0 : fbk.t)
    (w : World FullOrderObserver.t) :
  value (FullOrderObserver_cycle T_s fbk0 w) = Ok tt ->
  exists out, value (FullOrderObserver.output fbk0 w) = Ok out.
Proof.
  destruct (value (FullOrderObserver.output fbk0 w)) as [out|e] eqn:E;
    [eauto|].
  unfold FullOrderObserver_cycle. rewrite (bind_Raise _ _ _ _ E).
  discriminate.
Qed.

(** C5.  Calling [output] and then [update] on either observer leaves the
    stored flux angle [theta_s] in the interval (-pi, pi], for every
    feedback input and every sampling period [T_s]: [update] itself always
    returns and always stores a wrapped angle, whatever feedback and period
    it is given; and the two calls together return when the parameters are
    positive and the gain function returns.  [wrap] is as the specification
    describes it. *)
Theorem theta_s_wrapped_after_update :
  (forall (w : World Observer.t) (fbk0 : fbk.t) (T_s : R),
     let o := Observer_cycle T_s fbk0 w in
     (value o = Ok tt ->
      - PI < Observer.state.theta_s (Observer.state (self (final o))) <= PI)
     /\ (0 < Observer.T_s (self w) -> 0 < L_M (model_par w) ->
         returns (gain.k_o (Observer.gain (self w))) -> value o = Ok tt))
  /\ (forall (w : World Observer.t) (fbk1 : fbk.t) (T_s : R),
        let o := Observer.update T_s fbk1 w in
        value o = Ok tt
        /\ - PI < Observer.state.theta_s (Observer.state (self (final o)))
           <= PI)
  /\ (forall (w : World FullOrderObserver.t) (fbk0 : fbk.t) (T_s : R),
        let o := FullOrderObserver_cycle T_s fbk0 w in
        (value o = Ok tt ->
         - PI < FullOrderObserver.state.theta_s
                  (FullOrderObserver.state (self (final o))) <= PI)
        /\ (0 < L_M (model_par w) -> 0 < L_sgm (model_par w) ->
            returns (gain_full.k_o (FullOrderObserver.gain (self w))) ->
            value o = Ok tt))
  /\ (forall (w : World FullOrderObserver.t) (fbk1 : fbk.t) (T_s : R),
        let o := FullOrderObserver.update T_s fbk1 w in
        value o = Ok tt
        /\ - PI < FullOrderObserver.state.theta_s
                    (FullOrderObserver.state (self (final o))) <= PI).
Proof.
  assert (U : forall (w : World Observer.t) fbk1 T_s,
             let o := Observer.update T_s fbk1 w in
             value o = Ok tt
             /\ - PI < Observer.state.theta_s (Observer.state (self (final o)))
                <= PI).
  { intros w fbk1 T_s. cbn. split; [reflexivity | apply wrap_range]. }
  assert (UF : forall (w : World FullOrderObserver.t) fbk1 T_s,
             let o := FullOrderObserver.update T_s fbk1 w in
             value o = Ok tt
             /\ - PI < FullOrderObserver.state.theta_s
                         (FullOrderObserver.state (self (final o))) <= PI).
  { intros w fbk1 T_s. cbn. split; [reflexivity | apply wrap_range]. }
  split; [|split; [exact U | split; [|exact UF]]].
  - intros w fbk0 T_s o. subst o. split.
    + intros Hv. destruct (Observer_cycle_value _ _ _ Hv) as [out Hout].
      rewrite (Observer_cycle_Ok _ _ _ _ Hout). cbn [final]. apply U.
    + intros HT HL Hk.
      destruct (Observer_output_returns w fbk0) as [out Hout];
        [lra | lra | exact Hk |].
      rewrite (Observer_cycle_Ok _ _ _ _ Hout). reflexivity.
  - intros w fbk0 T_s o. subst o. split.
    + intros Hv.
      destruct (FullOrderObserver_cycle_value _ _ _ Hv) as [out Hout].
      rewrite (FullOrderObserver_cycle_Ok _ _ _ _ Hout). cbn [final].
      apply UF.
    + intros HL Hs Hk.
      destruct (FullOrderObserver_output_returns w fbk0) as [out Hout];
        [lra | lra | exact Hk |].
      rewrite (FullOrderObserver_cycle_Ok _ _ _ _ Hout). reflexivity.
Qed.

(** C5 at work: one sampling instant of the sensorless example observer. *)
Lemma theta_s_wrapped_after_update_witness :
  let o := Observer_cycle 1 (measured j 1 0) (example_observer true) in
  value o = Ok tt
  /\ - PI < Observer.state.theta_s (Observer.state (self (final o))) <= PI.
Proof.
  destruct (proj1 theta_s_wrapped_after_update (example_observer true)
              (measured j 1 0) 1) as [Hwrap Htotal].
  assert (Hv : value (Observer_cycle 1 (measured j 1 0)
                        (example_observer true)) = Ok tt)
    by (apply Htotal; [cbn; lra | cbn; lra | apply (example_gain_returns true)]).
  split; [exact Hv | exact (Hwrap Hv)].
Defined.

(** * The flux magnitude across a sampling instant *)

Lemma example_full_observer_init :
  FullOrderObserver.init (example_full_observer_par true)
  = Ok example_full_observer.
Proof. reflexivity. Qed.

Lemma Observer_cycle_psi_R (T_s : R) (fbk0 out : fbk.t)
    (w : World Observer.t) :
  value (Observer.output fbk0 w) = Ok out ->
  let o := Observer_cycle T_s fbk0 w in
  value o = Ok tt
  /\ Observer.state.psi_R (Observer.state (self (final o)))
     = Observer.state.psi_R (Observer.state (self w))
       + T_s * Observer.work.d_psi_R
                 (Observer._work (self (final (Observer.output fbk0 w)))).
Proof.
  intros Hout o. subst o. rewrite (Observer_cycle_Ok _ _ _ _ Hout).
  split; [reflexivity|]. cbn.
  destruct (Observer_output_frame w fbk0) as (_ & _ & _ & _ & Hst).
  cbn zeta in Hst. rewrite Hst. reflexivity.
Qed.

Lemma FullOrderObserver_cycle_psi_R (T_s : R) (fbk0 out : fbk.t)
    (w : World FullOrderObserver.t) :
  value (FullOrderObserver.output fbk0 w) = Ok out ->
  let o := FullOrderObserver_cycle T_s fbk0 w in
  value o = Ok tt
  /\ FullOrderObserver.state.psi_R (FullOrderObserver.state (self (final o)))
     = FullOrderObserver.state.psi_R (FullOrderObserver.state (self w))
       + T_s * FullOrderObserver.work.d_psi_R
                 (FullOrderObserver._work
                    (self (final (FullOrderObserver.output fbk0 w)))).
Proof.
  intros Hout o. subst o. rewrite (FullOrderObserver_cycle_Ok _ _ _ _ Hout).
  split; [reflexivity|]. cbn.
  destruct (FullOrderObserver_output_frame w fbk0) as (_ & _ & Hst).
  cbn zeta in Hst. rewrite Hst. reflexivity.
Qed.

(** C6, refuted as stated: from the initial state ([psi_R = 0]) of the
    example observers, one sampling instant with the measured current
    [i_ss = -1] (and [u_ss = 0], [T_s = 1]) leaves [psi_R = -1], for the
    reduced-order and for the full-order observer. *)
Lemma psi_R_negative_after_one_cycle :
  (let w := example_observer true in
   let o := Observer_cycle 1 (measured 0 (-1) 0) w in
   Observer.state.psi_R (Observer.state (self w)) = 0
   /\ value o = Ok tt
   /\ Observer.state.psi_R (Observer.state (self (final o))) = -1)
  /\
  (let w := example_full_observer in
   let o := FullOrderObserver_cycle 1 (measured 0 (-1) 0) w in
   FullOrderObserver.state.psi_R (FullOrderObserver.state (self w)) = 0
   /\ value o = Ok tt
   /\ FullOrderObserver.state.psi_R
        (FullOrderObserver.state (self (final o))) = -1).
Proof.
  split.
  - intros w o. subst w o. split; [reflexivity|].
    destruct (Observer_output_returns (example_observer true)
                (measured 0 (-1) 0))
      as [out Hout];
      [cbn; lra | cbn; lra | apply (example_gain_returns true) |].
    destruct (Observer_cycle_psi_R 1 _ _ _ Hout) as [Hv Hpsi'].
    split; [exact Hv|]. rewrite Hpsi'.
    destruct (example_output_initial _ _ _ Hout)
      as (Hpsi & Hwm & His & Hus & Hws & Hd).
    cbn zeta in Hws, Hd. rewrite Hd. clear Hd Hpsi'.
    assert (Hzero : fbk.w_s out = 0).
    { rewrite Hws. clear Hws. example_call Hpsi Hwm His Hus.
      destruct (Rlt_dec _ _) as [H|H]; [exfalso; lra | reflexivity]. }
    cbn [example_observer Observer.init self Observer.state
         Observer.state.psi_R].
    example_call Hpsi Hwm His Hus. rewrite Hzero. lra.
  - intros w o. subst w o. split; [reflexivity|].
    destruct (FullOrderObserver_output_returns example_full_observer
                (measured 0 (-1) 0))
      as [out Hout];
      [cbn; lra | cbn; lra | apply (example_gain_returns true) |].
    destruct (FullOrderObserver_cycle_psi_R 1 _ _ _ Hout) as [Hv Hpsi'].
    split; [exact Hv|]. rewrite Hpsi'. clear Hpsi'.
    destruct (FullOrderObserver_output_Ok _ _ _ Hout)
      as (_ & _ & k & Hk & _ & _ & Hpsi & Hth & Hwm & His & _ & _ & _ & _
          & _ & Hfin).
    cbn in Hpsi, Hth, Hwm. rewrite Hth, rotate_0 in His. cbn in His.
    assert (Hwm' : FullOrderCall.w_m example_full_observer out = 0).
    { unfold FullOrderCall.w_m, FullOrderCall.p_term. rewrite Hpsi, Hwm.
      destruct (Rlt_dec 0 0); lra. }
    cbn zeta in Hk. rewrite Hwm' in Hk. cbn in Hk.
    rewrite default_k_o_sensorless_0 in Hk by (rewrite example_alpha_1; lra).
    injection Hk as <-.
    rewrite Hfin. cbn [self FullOrderObserver._work
                       FullOrderObserver.work.d_psi_R].
    unfold FullOrderCall.d_psi_R, FullOrderObserver.d_psi_R_of,
      FullOrderCall.err_i_s.
    rewrite Hwm', Hpsi, His. cbn. unfold example_alpha. cbn.
    field_simplify. lra.
Qed.

(** C6, as amended.  The flux magnitude [psi_R] is 0 in the initial state
    of both observers.  A sampling instant ([output], then [update] with
    the period [T_s]) sets it to [psi_R + T_s*d_psi_R], where [d_psi_R] is
    the derivative [output] stored: so [psi_R >= 0] holds after the instant
    exactly when [psi_R + T_s*d_psi_R >= 0], in particular when [psi_R],
    [T_s] and [d_psi_R] are all non-negative.  The state is not clamped. *)
Theorem psi_R_after_cycle :
  (forall p : ObserverPars,
     Observer.state.psi_R (Observer.state (self (Observer.init p))) = 0)
  /\ (forall (p : FullOrderObserverPars) (w : World FullOrderObserver.t),
        FullOrderObserver.init p = Ok w ->
        FullOrderObserver.state.psi_R (FullOrderObserver.state (self w)) = 0)
  /\ (forall (w : World Observer.t) (fbk0 out : fbk.t) (T_s : R),
        value (Observer.output fbk0 w) = Ok out ->
        let o := Observer_cycle T_s fbk0 w in
        let psi_R := Observer.state.psi_R (Observer.state (self w)) in
        let psi_R' := Observer.state.psi_R (Observer.state (self (final o))) in
        let d_psi_R :=
          Observer.work.d_psi_R
            (Observer._work (self (final (Observer.output fbk0 w)))) in
        value o = Ok tt
        /\ psi_R' = psi_R + T_s * d_psi_R
        /\ (0 <= psi_R' <-> 0 <= psi_R + T_s * d_psi_R)
        /\ (0 <= psi_R -> 0 <= T_s -> 0 <= d_psi_R -> 0 <= psi_R'))
  /\ (forall (w : World FullOrderObserver.t) (fbk0 out : fbk.t) (T_s : R),
        value (FullOrderObserver.output fbk0 w) = Ok out ->
        let o := FullOrderObserver_cycle T_s fbk0 w in
        let psi_R :=
          FullOrderObserver.state.psi_R (FullOrderObserver.state (self w)) in
        let psi_R' :=
          FullOrderObserver.state.psi_R
            (FullOrderObserver.state (self (final o))) in
        let d_psi_R :=
          FullOrderObserver.work.d_psi_R
            (FullOrderObserver._work
               (self (final (FullOrderObserver.output fbk0 w)))) in
        value o = Ok tt
        /\ psi_R' = psi_R + T_s * d_psi_R
        /\ (0 <= psi_R' <-> 0 <= psi_R + T_s * d_psi_R)
        /\ (0 <= psi_R -> 0 <= T_s -> 0 <= d_psi_R -> 0 <= psi_R')).
Proof.
  split; [reflexivity|]. split.
  { intros p w. unfold FullOrderObserver.init.
    destruct (negb _); [discriminate|]. intros [= <-]. reflexivity. }
  split.
  - intros w fbk0 out T_s Hout.
    destruct (Observer_cycle_psi_R T_s _ _ _ Hout) as [Hv Hpsi].
    cbn zeta. rewrite Hpsi. repeat split; try assumption; try lra.
    intros. nra.
  - intros w fbk0 out T_s Hout.
    destruct (FullOrderObserver_cycle_psi_R T_s _ _ _ Hout) as [Hv Hpsi].
    cbn zeta. rewrite Hpsi. repeat split; try assumption; try lra.
    intros. nra.
Qed.

(** The amended C6 at work: the sensorless example observer, in its initial
    state, at a sampling instant with [i_ss = 1] and [u_ss = 0]: the stored
    derivative is 1, and the flux magnitude becomes 1. *)
Lemma psi_R_after_cycle_witness :
  let w := example_observer true in
  let o := Observer_cycle 1 (measured 0 1 0) w in
  value o = Ok tt
  /\ Observer.state.psi_R (Observer.state (self (final o))) = 1.
Proof.
  intros w o. subst w o.
  destruct (Observer_output_returns (example_observer true) (measured 0 1 0))
    as [out Hout];
    [cbn; lra | cbn; lra | apply (example_gain_returns true) |].
  destruct psi_R_after_cycle as (_ & _ & Hcycle & _).
  destruct (Hcycle _ _ _ 1 Hout) as (Hv & Hpsi' & _).
  split; [exact Hv|]. rewrite Hpsi'.
  destruct (example_output_initial _ _ _ Hout)
    as (Hpsi & Hwm & His & Hus & Hws & Hd).
  cbn zeta in Hws, Hd. rewrite Hd. clear Hd Hpsi'.
  assert (Hzero : fbk.w_s out = 0).
  { rewrite Hws. clear Hws. example_call Hpsi Hwm His Hus.
    destruct (Rlt_dec _ _) as [H|H]; [field_simplify; lra | reflexivity]. }
  cbn [example_observer Observer.init self Observer.state
       Observer.state.psi_R].
  example_call Hpsi Hwm His Hus. rewrite Hzero. lra.
Defined.

(** * Construction of the full-order observer *)

(** C7.  Constructing a [FullOrderObserver] from parameters whose
    [sensorless] flag is [False] raises [NotImplementedError]; with
    [sensorless] [True] the construction succeeds, with all states at 0.  An
    observer that was constructed is sensorless, and its [output] does not
    read the measured speed [fbk.w_m]: the call runs the same, and reports
    the estimate [self.state.w_m], whatever measured speed it is given. *)
Theorem full_order_rejects_sensored (p : FullOrderObserverPars) :
  (fop_sensorless p = false ->
   FullOrderObserver.init p = Raise NotImplementedError)
  /\ (fop_sensorless p = true ->
      FullOrderObserver.init p
      = Ok (mkWorld (fop_model_par p)
              (FullOrderObserver.mk true (fop_gain p)
                 (FullOrderObserver.state.mk 0 0 0 0)
                 (FullOrderObserver.work.mk 0 0 0))))
  /\ (forall w, FullOrderObserver.init p = Ok w ->
      fop_sensorless p = true
      /\ FullOrderObserver.sensorless (self w) = true
      /\ model_par w = fop_model_par p)
  /\ (forall (w : World FullOrderObserver.t) (u_ss i_ss : complex)
             (w_m w_m' : R),
      FullOrderObserver.output (measured u_ss i_ss w_m) w
      = FullOrderObserver.output (measured u_ss i_ss w_m') w)
  /\ (forall (w : World FullOrderObserver.t) (fbk0 out : fbk.t),
      value (FullOrderObserver.output fbk0 w) = Ok out ->
      fbk.w_m out
      = FullOrderObserver.state.w_m (FullOrderObserver.state (self w))).
Proof.
  unfold FullOrderObserver.init. cbn [FullOrderObserver.sensorless].
  repeat split.
  - intros ->. reflexivity.
  - intros ->. reflexivity.
  - destruct (fop_sensorless p); [reflexivity | discriminate].
  - destruct (fop_sensorless p); cbn in *; [|discriminate].
    match goal with H : Ok _ = Ok _ |- _ => injection H as <- end.
    reflexivity.
  - destruct (fop_sensorless p); cbn in *; [|discriminate].
    match goal with H : Ok _ = Ok _ |- _ => injection H as <- end.
    reflexivity.
  - intros w fbk0 out Hout.
    destruct (FullOrderObserver_output_Ok _ _ _ Hout)
      as (_ & _ & k & _ & _ & _ & _ & _ & Hwm & _).
    exact Hwm.
Qed.

(** C7 at work on the example parameters. *)
Lemma full_order_rejects_sensored_witness :
  FullOrderObserver.init (example_full_observer_par false)
  = Raise NotImplementedError
  /\ FullOrderObserver.init (example_full_observer_par true)
     = Ok example_full_observer.
Proof.
  split.
  - apply (proj1 (full_order_rejects_sensored
                    (example_full_observer_par false))).
    reflexivity.
  - destruct (full_order_rejects_sensored (example_full_observer_par true))
      as (_ & Hok & _).
    rewrite Hok; reflexivity.
Defined.

(** * Sequences of calls and the parameter record *)

Lemma frames_refl (par : ModelPars) : frames par par.
Proof.
  unfold frames. do 6 (split; [reflexivity|]).
  split; [reflexivity|]. split; [reflexivity|]. apply union_subseteq_l.
Qed.

Lemma frames_trans (par par' par'' : ModelPars) :
  frames par par' -> frames par' par'' -> frames par par''.
Proof.
  unfold frames.
  intros (H1 & H2 & H3 & H4 & H5 & H6 & H7 & H8 & H9)
         (G1 & G2 & G3 & G4 & G5 & G6 & G7 & G8 & G9).
  do 6 (split; [congruence|]). split; [|split].
  - intros name Hn Ha. rewrite G7, H7 by assumption. reflexivity.
  - clear - H8 G8. etrans; eassumption.
  - clear - H9 G9. intros x Hx. apply G9 in Hx.
    apply elem_of_union in Hx as [Hx|Hx].
    + apply H9, Hx.
    + apply elem_of_union. right. exact Hx.
Qed.

Lemma union_insert_kept (D A : gset string) (x : string) :
  D ∪ A ⊆ D ∪ ({[x]} ∪ A).
Proof.
  intros y. rewrite !elem_of_union. tauto.
Qed.

Lemma union_insert_grows (D A N : gset string) (x : string) :
  x ∈ N -> D ∪ ({[x]} ∪ A) ⊆ D ∪ A ∪ N.
Proof.
  intros Hx y. rewrite !elem_of_union, elem_of_singleton.
  intros [H|[->|H]]; tauto.
Qed.

Lemma frames_setattr (par : ModelPars) (name : string) (v : R) :
  name = "R_sgm" \/ name = "alpha" -> frames par (setattr par name v).
Proof.
  intros Hname. unfold frames, fields, setattr.
  cbn [R_s R_R L_sgm L_M n_p J attrs].
  do 6 (split; [reflexivity|]). split; [|split].
  - intros n Hn Ha. rewrite lookup_insert_ne; [reflexivity|].
    destruct Hname; congruence.
  - rewrite dom_insert_L. apply union_insert_kept.
  - rewrite dom_insert_L. apply union_insert_grows.
    apply elem_of_union. rewrite !elem_of_singleton. exact Hname.
Qed.

Lemma FullOrderObserver_output_frames (w : World FullOrderObserver.t)
    (fbk0 : fbk.t) :
  frames (model_par w) (model_par (final (FullOrderObserver.output fbk0 w))).
Proof.
  run (FullOrderObserver.output fbk0 w).
  all: unfold FullOrderObserver.set_work, FullOrderObserver.set_par;
       cbn [model_par self].
  all: first [ apply frames_setattr; tauto
             | eapply frames_trans; apply frames_setattr; tauto ].
Qed.

(** C8, refuted as stated: the first [output] call on the full-order example
    observer adds the attributes [R_sgm] and [alpha] to the [ModelPars]
    record it was constructed with. *)
Lemma full_order_output_adds_fields :
  let w := example_full_observer in
  let w' := FullOrderObserver_calls [Output (measured 0 0 0)] w in
  FullOrderObserver.init (example_full_observer_par true) = Ok w
  /\ model_par w = example_par
  /\ fields (model_par w) = declared_fields
  /\ fields (model_par w') = declared_fields ∪ {[ "R_sgm"; "alpha" ]}
  /\ attrs (model_par w) !! "R_sgm" = None
  /\ attrs (model_par w') !! "R_sgm" = Some 2
  /\ "R_sgm" ∈ fields (model_par w')
  /\ "R_sgm" ∉ fields (model_par w).
Proof.
  intros w w'. subst w w'.
  destruct (FullOrderObserver_output_returns example_full_observer
              (measured 0 0 0))
    as [out Hout];
    [cbn; lra | cbn; lra | apply (example_gain_returns true) |].
  destruct (FullOrderObserver_output_Ok _ _ _ Hout)
    as (_ & _ & k & _ & _ & _ & _ & _ & _ & _ & _ & _ & _ & _ & _ & Hfin).
  cbn [FullOrderObserver_calls fold_left FullOrderObserver_call].
  rewrite Hfin. unfold fields, setattr, declared_fields.
  cbn [model_par example_full_observer example_par attrs R_s R_R].
  rewrite !dom_insert_L, dom_empty_L.
  split_and!.
  - reflexivity.
  - reflexivity.
  - apply union_empty_r_L.
  - rewrite union_empty_r_L, (union_comm_L {["alpha"]}). reflexivity.
  - apply lookup_empty.
  - rewrite lookup_insert_ne by done. rewrite lookup_insert_eq.
    reflexivity.
  - rewrite !elem_of_union, !elem_of_singleton. tauto.
  - rewrite !elem_of_union, !elem_of_singleton, elem_of_empty.
    intros H. repeat destruct H as [H|H]; first [discriminate H | exact H].
Qed.

Lemma Observer_call_model_par (c : method_call) (w : World Observer.t) :
  model_par (Observer_call c w) = model_par w.
Proof.
  destruct c as [fbk0 | T_s fbk1]; cbn [Observer_call].
  - apply (Observer_output_frame w fbk0).
  - reflexivity.
Qed.

Lemma FullOrderObserver_call_frames (c : method_call)
    (w : World FullOrderObserver.t) :
  frames (model_par w) (model_par (FullOrderObserver_call c w)).
Proof.
  destruct c as [fbk0 | T_s fbk1]; cbn [FullOrderObserver_call].
  - apply FullOrderObserver_output_frames.
  - apply frames_refl.
Qed.

(** C8, as amended.  No sequence of [output] and [update] calls on either
    observer, returning or raising, changes a declared field ([R_s], [R_R],
    [L_sgm], [L_M], [n_p], [J]) of the [ModelPars] record the observer was
    constructed with.  The calls of the reduced-order observer leave the
    whole record as it was.  The calls of the full-order observer may add
    the attributes [R_sgm] and [alpha] to the record ([output] assigns
    them), and change and remove no other attribute. *)
Theorem declared_fields_never_mutated :
  (forall (cs : list method_call) (w : World Observer.t),
     model_par (Observer_calls cs w) = model_par w)
  /\ (forall (cs : list method_call) (w : World FullOrderObserver.t),
        let par := model_par w in
        let par' := model_par (FullOrderObserver_calls cs w) in
        R_s par' = R_s par /\ R_R par' = R_R par /\ L_sgm par' = L_sgm par
        /\ L_M par' = L_M par /\ n_p par' = n_p par /\ J par' = J par
        /\ (forall name, name <> "R_sgm" -> name <> "alpha" ->
            attrs par' !! name = attrs par !! name)
        /\ fields par ⊆ fields par'
        /\ fields par' ⊆ fields par ∪ {[ "R_sgm"; "alpha" ]}).
Proof.
  split.
  - induction cs as [|c cs IH]; intros w; [reflexivity|].
    unfold Observer_calls in *. cbn [fold_left].
    rewrite IH. apply Observer_call_model_par.
  - intros cs w. cbn zeta. fold (frames (model_par w)
                                   (model_par (FullOrderObserver_calls cs w))).
    revert w. induction cs as [|c cs IH]; intros w; [apply frames_refl|].
    unfold FullOrderObserver_calls in *. cbn [fold_left].
    eapply frames_trans; [apply (FullOrderObserver_call_frames c) | apply IH].
Qed.

(** * The observer gains of the two modes *)

Lemma default_k_o_sensored_0 alpha :
  alpha <> 0 -> default_k_o_sensored alpha 0 = Ok (RtoC 1).
Proof.
  intros Ha. unfold default_k_o_sensored, cdiv. calc.
  destruct (Req_dec_T _ _) as [E|E]; [exfalso; nra|].
  cbn [mbind result_bind mret result_ret]. f_equal. rewrite Rabs_R0.
  unfold Cadd. apply complex_eq; cbn [real imag]; field; nra.
Qed.

Lemma Observer_gains_inv (o : Observer.t) (w_m : R) (k_o1 k_o2 : complex) :
  Observer.gains o w_m = Ok (k_o1, k_o2) ->
  gain.k_o (Observer.gain o) w_m = Ok k_o1
  /\ k_o2 = if Observer.sensorless o then k_o1 else RtoC 0.
Proof.
  unfold Observer.gains.
  destruct (gain.k_o (Observer.gain o) w_m) as [k|e];
    destruct (Observer.sensorless o); cbn; intros [= <- <-] || discriminate;
    split; reflexivity.
Qed.

(** C9, refuted as stated: the sensored example observer (default gain) has
    the gains [(1, 0)] at standstill, and at every speed the coefficient
    [k_o2] of the conjugate is 0: there is no second gain term. *)
Lemma sensored_mode_has_one_gain_term :
  let o := self (example_observer false) in
  Observer.sensorless o = false
  /\ Observer.gains o 0 = Ok (RtoC 1, RtoC 0)
  /\ (forall w_m k_o1 k_o2,
        Observer.gains o w_m = Ok (k_o1, k_o2) -> k_o2 = RtoC 0).
Proof.
  cbn zeta. split; [reflexivity|]. split.
  - unfold Observer.gains. cbn.
    rewrite default_k_o_sensored_0 by (rewrite example_alpha_1; lra).
    reflexivity.
  - intros w_m k_o1 k_o2 Hg.
    apply (Observer_gains_inv _ _ _ _ Hg).
Qed.

(** C9, as amended.  In both modes [Observer.output] takes one gain term,
    [k_o1 = k_o(w_m)].  In the sensorless mode it scales a
    conjugate-symmetric correction: [k_o2 = k_o1], so that
    [k_o1*x + k_o2*conj(x) = k_o1*(x + conj(x))].  In the sensored mode the
    coefficient of the conjugate is the constant [k_o2 = 0], so that the
    correction is [k_o1*x].  These are the coefficients [output] computes
    [w_s] with. *)
Theorem observer_gain_terms (o : Observer.t) (w_m : R) :
  (forall k, gain.k_o (Observer.gain o) w_m = Ok k ->
     Observer.gains o w_m
     = Ok (k, if Observer.sensorless o then k else RtoC 0))
  /\ (forall e, gain.k_o (Observer.gain o) w_m = Raise e ->
        Observer.gains o w_m = Raise e)
  /\ (forall k_o1 k_o2, Observer.gains o w_m = Ok (k_o1, k_o2) ->
        gain.k_o (Observer.gain o) w_m = Ok k_o1
        /\ (Observer.sensorless o = true ->
            k_o2 = k_o1
            /\ forall x, (k_o1 * x + k_o2 * conj x)%C
                         = (k_o1 * (x + conj x))%C)
        /\ (Observer.sensorless o = false ->
            k_o2 = RtoC 0
            /\ forall x, (k_o1 * x + k_o2 * conj x)%C = (k_o1 * x)%C))
  /\ (forall (w : World Observer.t) (fbk0 out : fbk.t),
        self w = o -> value (Observer.output fbk0 w) = Ok out ->
        fbk.w_m out = w_m ->
        exists k,
          gain.k_o (Observer.gain o) w_m = Ok k
          /\ let k_o2 := if Observer.sensorless o then k else RtoC 0 in
             let den := ObserverCall.den w out k k_o2 in
             fbk.w_s out = (if Rlt_dec 0 den
                            then ObserverCall.num w out k k_o2 / den
                            else fbk.w_m out)).
Proof.
  pose proof (Observer_gains_inv o w_m) as G.
  split; [|split; [|split]].
  - intros k Hk. unfold Observer.gains. rewrite Hk.
    destruct (Observer.sensorless o); reflexivity.
  - intros e He. unfold Observer.gains. rewrite He.
    destruct (Observer.sensorless o); reflexivity.
  - intros k1 k2 Hg. destruct (G k1 k2 Hg) as [Hk Hk2].
    split; [exact Hk|]. split; intros Hs; rewrite Hs in Hk2; subst k2.
    + split; [reflexivity|]. intros x.
      apply complex_eq; calc; ring.
    + split; [reflexivity|]. intros x.
      apply complex_eq; calc; ring.
  - intros w fbk0 out Hself Hout Hwm.
    destruct (Observer_output_Ok w fbk0 out Hout)
      as (_ & _ & k1 & k2 & Hg & _ & _ & _ & _ & _ & _ & _ & _ & Hws & _).
    rewrite Hself, Hwm in Hg. destruct (G k1 k2 Hg) as [Hk Hk2].
    exists k1. split; [exact Hk|]. cbn zeta in *. rewrite <- Hk2.
    exact Hws.
Qed.

(** The amended C9 at work on the two example observers at standstill. *)
Lemma observer_gain_terms_witness :
  Observer.gains (self (example_observer true)) 0
  = Ok (RtoC (1 / 2), RtoC (1 / 2))
  /\ Observer.gains (self (example_observer false)) 0
     = Ok (RtoC 1, RtoC 0).
Proof.
  split.
  - apply (proj1 (observer_gain_terms (self (example_observer true)) 0)).
    apply default_k_o_sensorless_0. rewrite example_alpha_1. lra.
  - apply (proj1 (observer_gain_terms (self (example_observer false)) 0)).
    apply default_k_o_sensored_0. rewrite example_alpha_1. lra.
Defined.

(** C8's amendment at work: two sampling instants of the full-order example
    observer leave the declared field [R_R] as it was. *)
Lemma declared_fields_never_mutated_witness :
  R_R (model_par
         (FullOrderObserver_calls
            [Output (measured j 1 0); Update 1 (measured j 1 0);
             Output (measured j 1 0); Update 1 (measured j 1 0)]
            example_full_observer))
  = 1.
Proof.
  destruct (proj2 declared_fields_never_mutated
              [Output (measured j 1 0); Update 1 (measured j 1 0);
               Output (measured j 1 0); Update 1 (measured j 1 0)]
              example_full_observer) as (_ & HR & _).
  rewrite HR. reflexivity.
Defined.

(** * The diode bridge *)

Lemma cos_4PI3 : cos (4 * PI / 3) = - (1 / 2).
Proof.
  replace (4 * PI / 3) with (PI / 3 + PI) by field.
  rewrite neg_cos, cos_PI3. reflexivity.
Qed.

(** What [f] returns: the inductor-current derivative is zeroed only for a
    strictly negative current. *)
Lemma f_returns (conv : FrequencyConverter.t) (t u_dc i_L i_dc : R) :
  FrequencyConverter.L conv <> 0 -> FrequencyConverter.C conv <> 0 ->
  let d_i_L := (u_di conv t - u_dc) / FrequencyConverter.L conv in
  FrequencyConverter.f t u_dc i_L i_dc conv
  = mkOutcome
      (Ok ((i_L - i_dc) / FrequencyConverter.C conv,
           if Rlt_dec i_L 0 then if Rlt_dec d_i_L 0 then 0 else d_i_L
           else d_i_L))
      conv
      [Div "d_u_dc" (FrequencyConverter.C conv);
       Div "d_i_L" (FrequencyConverter.L conv)].
Proof.
  intros HL HC d_i_L. subst d_i_L.
  run (FrequencyConverter.f t u_dc i_L i_dc conv). reflexivity.
Qed.

Lemma initial_u_di (L C U_g f_g : R) :
  0 < U_g ->
  let conv := FrequencyConverter.init L C U_g f_g in
  u_di conv 0 = 15 / 10 * FrequencyConverter.u_g conv.
Proof.
  intros HU conv. subst conv.
  unfold u_di, FrequencyConverter.grid_voltages, FrequencyConverter.init,
    FrequencyConverter.amax, FrequencyConverter.amin.
  cbn [FrequencyConverter.w_g FrequencyConverter.u_g].
  replace (2 * PI * f_g * 0) with 0 by ring.
  replace (0 - 2 * PI / 3) with (- (2 * (PI / 3))) by field.
  replace (0 - 4 * PI / 3) with (- (4 * PI / 3)) by field.
  rewrite !cos_neg, cos_0, cos_2PI3, cos_4PI3.
  assert (Hs : 0 < sqrt (2 / 3)) by (apply sqrt_lt_R0; lra).
  assert (Hg : 0 < sqrt (2 / 3) * U_g) by (apply Rmult_lt_0_compat; lra).
  set (g := sqrt (2 / 3) * U_g) in *.
  rewrite (Rmax_left (g * 1)) by lra.
  rewrite (Rmax_left (g * 1)) by lra.
  rewrite (Rmin_right (g * 1)) by lra.
  rewrite Rmin_left by lra. lra.
Qed.

Lemma initial_u_di_below_u_dc0 (L C U_g f_g : R) :
  0 < U_g ->
  let conv := FrequencyConverter.init L C U_g f_g in
  15 / 10 * FrequencyConverter.u_g conv < FrequencyConverter.u_dc0 conv.
Proof.
  intros HU conv. subst conv.
  cbn [FrequencyConverter.init FrequencyConverter.u_g
       FrequencyConverter.u_dc0].
  assert (Ha : 0 <= sqrt (2 / 3)) by apply sqrt_pos.
  assert (Hb : 0 <= sqrt 2) by apply sqrt_pos.
  assert (Haa : sqrt (2 / 3) * sqrt (2 / 3) = 2 / 3)
    by (apply sqrt_sqrt; lra).
  assert (Hbb : sqrt 2 * sqrt 2 = 2) by (apply sqrt_sqrt; lra).
  assert (15 / 10 * sqrt (2 / 3) < sqrt 2) by nra.
  nra.
Qed.

Lemma Rdiv_neg_pos (x y : R) : x < 0 -> 0 < y -> x / y < 0.
Proof.
  intros Hx Hy. unfold Rdiv.
  pose proof (Rinv_0_lt_compat y Hy). nra.
Qed.

(** C4: the code at the input where it departs from the claim.  At an
    inductor current of exactly 0, [f] returns the unconstrained derivative
    [(u_di - u_dc)/L] also when it is negative: the guard of line 169 is
    [i_L < 0].  This is the case in the initial state of the converter of
    [plot_vector_ctrl_pmsm_2kw_diode.py] ([L = 2e-3], [C = 235e-6],
    [U_g = 400], [f_g = 50]; [t = 0], [i_L = i_L0 = 0], [u_dc = u_dc0]),
    where the bridge voltage is [1.5*u_g < u_dc0].  The derivative is zeroed
    only at a strictly negative current. *)
Theorem diode_bridge_zero_current_not_clamped :
  (forall (conv : FrequencyConverter.t) (t u_dc i_dc : R),
     0 < FrequencyConverter.L conv -> FrequencyConverter.C conv <> 0 ->
     u_di conv t - u_dc < 0 ->
     exists d_u_dc d_i_L,
       value (FrequencyConverter.f t u_dc 0 i_dc conv) = Ok (d_u_dc, d_i_L)
       /\ d_i_L = (u_di conv t - u_dc) / FrequencyConverter.L conv
       /\ d_i_L < 0)
  /\ (let conv := FrequencyConverter.init (2 / 1000) (235 / 1000000) 400 50 in
      exists d_u_dc d_i_L,
        value (FrequencyConverter.f 0 (FrequencyConverter.u_dc0 conv)
                 (FrequencyConverter.i_L0 conv) 0 conv)
        = Ok (d_u_dc, d_i_L)
        /\ FrequencyConverter.i_L0 conv = 0
        /\ d_i_L = (15 / 10 * FrequencyConverter.u_g conv
                    - FrequencyConverter.u_dc0 conv)
                   / FrequencyConverter.L conv
        /\ d_i_L < 0)
  /\ (forall (conv : FrequencyConverter.t) (t u_dc i_L i_dc : R),
        0 < FrequencyConverter.L conv -> FrequencyConverter.C conv <> 0 ->
        i_L < 0 -> u_di conv t - u_dc < 0 ->
        exists d_u_dc,
          value (FrequencyConverter.f t u_dc i_L i_dc conv)
          = Ok (d_u_dc, 0)).
Proof.
  assert (Hzero : forall (conv : FrequencyConverter.t) (t u_dc i_dc : R),
            0 < FrequencyConverter.L conv -> FrequencyConverter.C conv <> 0 ->
            u_di conv t - u_dc < 0 ->
            exists d_u_dc d_i_L,
              value (FrequencyConverter.f t u_dc 0 i_dc conv)
              = Ok (d_u_dc, d_i_L)
              /\ d_i_L = (u_di conv t - u_dc) / FrequencyConverter.L conv
              /\ d_i_L < 0).
  { intros conv t u_dc i_dc HL HC Hneg.
    rewrite f_returns by (assumption || lra). cbn [value].
    destruct (Rlt_dec 0 0) as [H|_]; [lra|].
    eexists _, _. split; [reflexivity|]. split; [reflexivity|].
    apply Rdiv_neg_pos; assumption. }
  split; [exact Hzero|]. split.
  - cbn zeta.
    set (conv := FrequencyConverter.init (2 / 1000) (235 / 1000000) 400 50).
    assert (HU : 0 < 400) by lra.
    pose proof (initial_u_di (2 / 1000) (235 / 1000000) 400 50 HU) as Hdi.
    pose proof (initial_u_di_below_u_dc0 (2 / 1000) (235 / 1000000) 400 50 HU)
      as Hlt.
    cbn zeta in Hdi, Hlt. fold conv in Hdi, Hlt.
    destruct (Hzero conv 0 (FrequencyConverter.u_dc0 conv) 0)
      as (d_u_dc & d_i_L & Hv & Hd & Hn).
    + cbn. lra.
    + cbn. lra.
    + rewrite Hdi. lra.
    + exists d_u_dc, d_i_L. split; [exact Hv|]. split; [reflexivity|].
      split; [|exact Hn]. rewrite Hd, Hdi. reflexivity.
  - intros conv t u_dc i_L i_dc HL HC Hi Hneg.
    rewrite f_returns by (assumption || lra). cbn [value].
    destruct (Rlt_dec i_L 0) as [_|H]; [|contradiction].
    destruct (Rlt_dec _ 0) as [_|H].
    + eexists. reflexivity.
    + exfalso. apply H. apply Rdiv_neg_pos; assumption.
Qed.

(** * Further properties of the observers *)

Lemma cos_sin_sqr (theta : R) :
  cos theta * cos theta + sin theta * sin theta = 1.
Proof. pose proof (sin2_cos2 theta) as H. unfold Rsqr in H. lra. Qed.

Lemma Cexp_j (theta : R) : Cexp (j * theta) = mkC (cos theta) (sin theta).
Proof.
  unfold Cexp, Cmul, j, RtoC. cbn [real imag].
  replace (0 * theta - 1 * 0) with 0 by ring.
  replace (0 * 0 + 1 * theta) with theta by ring.
  rewrite exp_0. f_equal; ring.
Qed.

Lemma Cexp_neg_j (theta : R) :
  Cexp (- j * theta) = mkC (cos theta) (- sin theta).
Proof.
  unfold Cexp, Cmul, Copp, j, RtoC. cbn [real imag].
  replace (- 0 * theta - - (1) * 0) with 0 by ring.
  replace (- 0 * 0 + - (1) * theta) with (- theta) by ring.
  rewrite exp_0, cos_neg, sin_neg. f_equal; ring.
Qed.

(** Turning a vector back by the angle it was turned by. *)
Lemma rotate_inverse (theta : R) (z : complex) :
  (Cexp (j * theta) * rotate theta z)%C = z.
Proof.
  unfold rotate. rewrite Cexp_j, Cexp_neg_j.
  pose proof (cos_sin_sqr theta) as H1.
  destruct z as [a b]. unfold Cmul. cbn [real imag].
  set (c := cos theta) in *. set (s := sin theta) in *.
  apply complex_eq; cbn [real imag].
  - replace (c * (c * a - - s * b) - s * (c * b + - s * a))
      with ((c * c + s * s) * a) by ring.
    rewrite H1. ring.
  - replace (c * (c * b + - s * a) + s * (c * a - - s * b))
      with ((c * c + s * s) * b) by ring.
    rewrite H1. ring.
Qed.

(** Two vectors turned by the same angle keep their product [z * conj w]. *)
Lemma rotate_product (theta : R) (z w : complex) :
  (rotate theta z * conj (rotate theta w))%C = (z * conj w)%C.
Proof.
  unfold rotate. rewrite Cexp_neg_j.
  pose proof (cos_sin_sqr theta) as H1.
  destruct z as [a b], w as [x y]. unfold Cmul, conj. cbn [real imag].
  set (c := cos theta) in *. set (s := sin theta) in *.
  apply complex_eq; cbn [real imag].
  - replace ((c * a - - s * b) * (c * x - - s * y) -
             (c * b + - s * a) * - (c * y + - s * x))
      with ((c * c + s * s) * (a * x - b * - y)) by ring.
    rewrite H1. ring.
  - replace ((c * a - - s * b) * - (c * y + - s * x) +
             (c * b + - s * a) * (c * x - - s * y))
      with ((c * c + s * s) * (a * - y + b * x)) by ring.
    rewrite H1. ring.
Qed.

Lemma rotate_in_flux_coordinates (out : fbk.t) :
  fbk.i_s out = rotate (fbk.theta_s out) (fbk.i_ss out) ->
  fbk.u_s out = rotate (fbk.theta_s out) (fbk.u_ss out) ->
  in_flux_coordinates out.
Proof.
  intros Hi Hu. unfold in_flux_coordinates.
  rewrite Hi, Hu, !rotate_inverse, rotate_product.
  repeat split.
  pose proof (rotate_product (fbk.theta_s out) (fbk.i_ss out) (fbk.i_ss out))
    as H.
  apply (f_equal real) in H. unfold Cmul, conj in H. cbn [real imag] in H.
  lra.
Qed.

(** X1.  The feedback that [output] of either observer returns holds the
    measured vectors turned by the flux angle: turning [i_s] and [u_s] back
    by [theta_s] gives [i_ss] and [u_ss], the product [u_s * conj(i_s)]
    (the active and the reactive power) is that of the stator coordinates,
    and the current keeps its magnitude. *)
Theorem flux_coordinates_are_a_rotation :
  (forall (w : World Observer.t) (fbk0 out : fbk.t),
     value (Observer.output fbk0 w) = Ok out ->
     in_flux_coordinates out
     /\ fbk.i_ss out = fbk.i_ss fbk0 /\ fbk.u_ss out = fbk.u_ss fbk0)
  /\ (forall (w : World FullOrderObserver.t) (fbk0 out : fbk.t),
        value (FullOrderObserver.output fbk0 w) = Ok out ->
        in_flux_coordinates out
        /\ fbk.i_ss out = fbk.i_ss fbk0 /\ fbk.u_ss out = fbk.u_ss fbk0).
Proof.
  split; intros w fbk0 out Hout.
  - destruct (Observer_output_Ok w fbk0 out Hout)
      as (_ & _ & k1 & k2 & _ & Huss & Hiss & _ & _ & _ & His & Hus & _).
    split; [|split; assumption].
    apply rotate_in_flux_coordinates; congruence.
  - destruct (FullOrderObserver_output_Ok w fbk0 out Hout)
      as (_ & _ & k & _ & Huss & Hiss & _ & _ & _ & His & Hus & _).
    split; [|split; assumption].
    apply rotate_in_flux_coordinates; congruence.
Qed.

Lemma flux_coordinates_are_a_rotation_witness :
  exists out,
    value (Observer.output (measured j 1 0) (example_observer true)) = Ok out
    /\ in_flux_coordinates out.
Proof.
  destruct (Observer_output_returns (example_observer true) (measured j 1 0))
    as [out Hout];
    [cbn; lra | cbn; lra | apply (example_gain_returns true) |].
  exists out. split; [exact Hout|].
  apply (proj1 flux_coordinates_are_a_rotation _ _ _ Hout).
Defined.

(** X2.  The frequency [w_s] that the reduced-order [output] solves for keeps
    the flux estimate on the d-axis.  The derivative [output] stores is the
    real part of [v + k_o1*(v_r - v) + k_o2*conj(v_r - v)], where
    [v = v_s - 1j*w_s*L_sgm*i_s]; when the denominator [den] is positive,
    the imaginary part of the same vector is [w_s*psi_R], the rotation of
    the flux vector with the coordinate system. *)
Theorem w_s_keeps_flux_on_d_axis (w : World Observer.t) (fbk0 out : fbk.t) :
  value (Observer.output fbk0 w) = Ok out ->
  exists k_o1 k_o2,
    Observer.gains (self w) (fbk.w_m out) = Ok (k_o1, k_o2)
    /\ let v := ObserverCall.v w out in
       let v_r := ObserverCall.v_r w out in
       let d_psi := (v + k_o1 * (v_r - v) + k_o2 * conj (v_r - v))%C in
       Observer.work.d_psi_R
         (Observer._work (self (final (Observer.output fbk0 w))))
       = real d_psi
       /\ (0 < ObserverCall.den w out k_o1 k_o2 ->
           imag d_psi = fbk.w_s out * fbk.psi_R out).
Proof.
  intros Hout.
  destruct (Observer_output_Ok w fbk0 out Hout)
    as (_ & _ & k1 & k2 & Hg & _ & _ & _ & _ & _ & _ & _ & _ & Hws & _ & _
        & Hfin).
  exists k1, k2. split; [exact Hg|]. cbn zeta in *.
  split; [rewrite Hfin; reflexivity|].
  intros Hden.
  destruct (Rlt_dec 0 (ObserverCall.den w out k1 k2)) as [_|];
    [|contradiction].
  assert (Hn : ObserverCall.num w out k1 k2
               = fbk.w_s out * ObserverCall.den w out k1 k2)
    by (rewrite Hws; field; lra).
  clear Hws. revert Hn.
  unfold ObserverCall.num, ObserverCall.den, ObserverCall.v,
    Observer.num_of, Observer.den_of.
  generalize (ObserverCall.v_s w out) (ObserverCall.v_r w out) (fbk.i_s out)
    (fbk.w_s out) (fbk.psi_R out) (L_sgm (model_par w)).
  intros [a b] [c d] [x y] ws psi L.
  destruct k1 as [p q], k2 as [r s].
  unfold Cadd, Csub, Cmul, conj, RtoC, j. cbn [real imag]. intros Hn.
  lra.
Qed.

Lemma w_s_keeps_flux_on_d_axis_witness :
  exists out k_o1 k_o2,
    value (Observer.output (measured j 1 0) (example_observer true)) = Ok out
    /\ Observer.gains (self (example_observer true)) (fbk.w_m out)
       = Ok (k_o1, k_o2).
Proof.
  destruct (Observer_output_returns (example_observer true) (measured j 1 0))
    as [out Hout];
    [cbn; lra | cbn; lra | apply (example_gain_returns true) |].
  destruct (w_s_keeps_flux_on_d_axis _ _ _ Hout) as (k1 & k2 & Hg & _).
  exists out, k1, k2. split; [exact Hout | exact Hg].
Defined.

(** X3.  The gain [k_o = lambda w_m: 1] in the sensored mode gives the
    current model: every call of [output] that returns has
    [w_s = w_m + w_r], stores the flux derivative
    [R_R*Re(i_s) - (R_R/L_M)*psi_R], which the stator voltage does not enter,
    and stores the speed derivative 0. *)
Theorem unit_gain_is_current_model (w : World Observer.t)
    (fbk0 out : fbk.t) :
  Observer.sensorless (self w) = false ->
  (forall w_m, gain.k_o (Observer.gain (self w)) w_m = Ok (RtoC 1)) ->
  value (Observer.output fbk0 w) = Ok out ->
  let par := model_par w in
  let work := Observer._work (self (final (Observer.output fbk0 w))) in
  fbk.w_s out = fbk.w_m out + fbk.w_r out
  /\ Observer.work.d_psi_R work
     = R_R par * real (fbk.i_s out) - R_R par / L_M par * fbk.psi_R out
  /\ Observer.work.d_w_m work = 0.
Proof.
  intros Hs Hk Hout.
  destruct (Observer_output_Ok w fbk0 out Hout)
    as (_ & HL & k1 & k2 & Hg & _ & _ & _ & _ & _ & _ & _ & _ & Hws & Hwr & _
        & Hfin).
  cbn zeta in *.
  unfold Observer.gains in Hg. rewrite Hs, Hk in Hg. cbn in Hg.
  injection Hg as <- <-.
  assert (Hsum : fbk.w_s out = fbk.w_m out + fbk.w_r out).
  { rewrite Hws, Hwr.
    unfold ObserverCall.den, ObserverCall.num, ObserverCall.v_r,
      Observer.den_of, Observer.num_of, Observer.v_r_of.
    generalize (ObserverCall.v_s w out). intros [a b].
    destruct (fbk.i_s out) as [x y].
    unfold Cadd, Csub, Cmul, conj, RtoC, j. cbn [real imag].
    set (psi := fbk.psi_R out).
    replace (psi + L_sgm (model_par w)
                   * ((1 - 1) * x - (0 - 0) * y + (0 * x - 0 * - y)))
      with psi by ring.
    destruct (Rlt_dec 0 psi) as [Hp|Hp]; [field; lra | ring]. }
  split; [exact Hsum|]. rewrite Hfin.
  cbn [self Observer._work Observer.work.d_psi_R Observer.work.d_w_m].
  split.
  - unfold Observer.d_psi_R_of, ObserverCall.v_r, Observer.v_r_of.
    generalize (ObserverCall.v w out). intros [a b].
    destruct (fbk.i_s out) as [x y].
    unfold Cadd, Csub, Cmul, conj, RtoC, j. cbn [real imag]. ring.
  - rewrite Hsum. ring.
Qed.

Lemma unit_gain_is_current_model_witness :
  let w := Observer.init
             (mkObserverPars example_par 1 false
                (gain.mk 1 (fun _ => Ok (RtoC 1)))) in
  exists out,
    value (Observer.output (measured j 1 0) w) = Ok out
    /\ fbk.w_s out = fbk.w_m out + fbk.w_r out.
Proof.
  intros w.
  destruct (Observer_output_returns w (measured j 1 0)) as [out Hout];
    [cbn; lra | cbn; lra | intros x; cbn; eauto |].
  exists out. split; [exact Hout|].
  apply (unit_gain_is_current_model w (measured j 1 0) out);
    [reflexivity | reflexivity | exact Hout].
Defined.

(** X4.  The gain [k_o = lambda w_m: 0] gives the pure voltage model, in
    both modes: every call of [output] that returns has
    [w_s = Im(v_s)/Re(psi_s)] when [Re(psi_s) = psi_R + L_sgm*Re(i_s)] is
    positive (and [w_s = w_m] otherwise), and stores the flux derivative
    [Re(v_s) + w_s*L_sgm*Im(i_s)]: the rotor-side vector [v_r] enters
    neither. *)
Theorem zero_gain_is_voltage_model (w : World Observer.t)
    (fbk0 out : fbk.t) :
  (forall w_m, gain.k_o (Observer.gain (self w)) w_m = Ok (RtoC 0)) ->
  value (Observer.output fbk0 w) = Ok out ->
  let par := model_par w in
  let v_s := ObserverCall.v_s w out in
  let work := Observer._work (self (final (Observer.output fbk0 w))) in
  real (fbk.psi_s out) = fbk.psi_R out + L_sgm par * real (fbk.i_s out)
  /\ fbk.w_s out = (if Rlt_dec 0 (real (fbk.psi_s out))
                    then imag v_s / real (fbk.psi_s out)
                    else fbk.w_m out)
  /\ Observer.work.d_psi_R work
     = real v_s + fbk.w_s out * L_sgm par * imag (fbk.i_s out).
Proof.
  intros Hk Hout.
  destruct (Observer_output_Ok w fbk0 out Hout)
    as (_ & _ & k1 & k2 & Hg & _ & _ & _ & _ & _ & _ & _ & Hpsi & Hws & _ & _
        & Hfin).
  cbn zeta in *.
  assert (k1 = RtoC 0 /\ k2 = RtoC 0) as [-> ->].
  { unfold Observer.gains in Hg. rewrite Hk in Hg.
    destruct (Observer.sensorless (self w)); cbn in Hg;
      injection Hg as <- <-; split; reflexivity. }
  split; [|split].
  - rewrite Hpsi. destruct (fbk.i_s out) as [x y].
    unfold Cadd, Cmul, RtoC. cbn [real imag]. ring.
  - rewrite Hws, Hpsi.
    unfold ObserverCall.den, ObserverCall.num, Observer.den_of,
      Observer.num_of.
    generalize (ObserverCall.v_s w out) (ObserverCall.v_r w out).
    intros [a b] [c d]. destruct (fbk.i_s out) as [x y].
    unfold Cadd, Csub, Cmul, conj, RtoC, j. cbn [real imag].
    set (psi := fbk.psi_R out). set (L := L_sgm (model_par w)).
    replace (psi + L * ((1 - 0) * x - (0 - 0) * y + (0 * x - 0 * - y)))
      with (L * x - 0 * y + psi) by ring.
    replace (b + (0 * (d - b) + 0 * (c - a)) + (0 * - (d - b) + 0 * (c - a)))
      with b by ring.
    reflexivity.
  - rewrite Hfin. cbn [self Observer._work Observer.work.d_psi_R].
    unfold Observer.d_psi_R_of, ObserverCall.v.
    generalize (ObserverCall.v_s w out) (ObserverCall.v_r w out).
    intros [a b] [c d]. destruct (fbk.i_s out) as [x y].
    unfold Cadd, Csub, Cmul, conj, RtoC, j. cbn [real imag]. ring.
Qed.

Lemma zero_gain_is_voltage_model_witness :
  let w := Observer.init
             (mkObserverPars example_par 1 true
                (gain.mk 1 (fun _ => Ok (RtoC 0)))) in
  exists out,
    value (Observer.output (measured j 1 0) w) = Ok out
    /\ real (fbk.psi_s out)
       = fbk.psi_R out + L_sgm (model_par w) * real (fbk.i_s out).
Proof.
  intros w.
  destruct (Observer_output_returns w (measured j 1 0)) as [out Hout];
    [cbn; lra | cbn; lra | intros x; cbn; eauto |].
  exists out. split; [exact Hout|].
  apply (zero_gain_is_voltage_model w (measured j 1 0) out);
    [reflexivity | exact Hout].
Defined.

(** Two runs of a method that take the same decisions: the cases of the
    decisions, in each of which both runs are evaluated. *)
Ltac both_runs :=
  unfold Observer.output, FullOrderObserver.output,
         FullOrderObserver.par_attr, getattr, Observer.gains,
         FullOrderObserver.set_par, FullOrderObserver.set_work, setattr,
         mbind, M_bind, bind, get, cdiv_real, rdiv, call, modify, raise,
         mret, M_ret, ret, div_complex, div;
  repeat (cbv beta iota zeta;
          cbn [self model_par attrs R_s R_R L_sgm L_M n_p J
               Observer.sensorless Observer.T_s Observer.gain
               Observer.state Observer._work Observer.state.psi_R
               Observer.state.theta_s Observer.state.w_m
               FullOrderObserver.sensorless FullOrderObserver.gain
               FullOrderObserver.state FullOrderObserver._work
               FullOrderObserver.state.psi_R FullOrderObserver.state.i_s
               FullOrderObserver.state.theta_s FullOrderObserver.state.w_m
               result_bind result_ret value final divisions
               fbk.u_ss fbk.i_ss fbk.w_m fbk.psi_R fbk.theta_s fbk.i_s
               fbk.u_s fbk.psi_s fbk.w_s fbk.w_r];
          match goal with
          | |- context [if ?b then _ else _] => is_var b; destruct b
          | |- context [(<[?k:=_]> _) !! ?k] => rewrite lookup_insert_eq
          | |- context [(<[_:=_]> _) !! _] =>
              rewrite lookup_insert_ne by done
          | |- context [Req_dec_T ?a ?b] =>
              destruct (Req_dec_T a b); absurd_case
          | |- context [Rlt_dec ?a ?b] =>
              destruct (Rlt_dec a b); absurd_case
          | |- context [gain.k_o ?g ?x] => destruct (gain.k_o g x)
          | |- context [gain_full.k_o ?g ?x] => destruct (gain_full.k_o g x)
          end);
  cbv beta iota zeta;
  cbn [self model_par attrs R_s R_R L_sgm L_M n_p J
       Observer.sensorless Observer.T_s Observer.gain
       Observer.state Observer._work Observer.state.psi_R
       Observer.state.theta_s Observer.state.w_m
       FullOrderObserver.sensorless FullOrderObserver.gain
       FullOrderObserver.state FullOrderObserver._work
       FullOrderObserver.state.psi_R FullOrderObserver.state.i_s
       FullOrderObserver.state.theta_s FullOrderObserver.state.w_m
       result_bind result_ret value final divisions
       fbk.u_ss fbk.i_ss fbk.w_m fbk.psi_R fbk.theta_s fbk.i_s
       fbk.u_s fbk.psi_s fbk.w_s fbk.w_r].

(** A call of the reduced-order [output] that raises has assigned nothing. *)
Lemma Observer_output_Raise (w : World Observer.t) (fbk0 : fbk.t) (e : exn) :
  value (Observer.output fbk0 w) = Raise e ->
  final (Observer.output fbk0 w) = w.
Proof.
  run (Observer.output fbk0 w).
  all: intros Hv; first [ discriminate Hv | reflexivity ].
Qed.

(** [output] reads neither the derivatives stored by an earlier call nor,
    of [fbk], anything but the measured signals. *)
Lemma Observer_output_reads (par : ModelPars) (s : bool) (T : R)
    (g : gain.t) (st : Observer.state.t) (d1 d2 d1' d2' : R) (old : complex)
    (fbk0 fbk1 out : fbk.t) :
  let w := mkWorld par (Observer.mk s T g st (Observer.work.mk d1 d2 old)) in
  let w' :=
    mkWorld par (Observer.mk s T g st (Observer.work.mk d1' d2' old)) in
  fbk.u_ss fbk1 = fbk.u_ss fbk0 -> fbk.i_ss fbk1 = fbk.i_ss fbk0 ->
  (s = false -> fbk.w_m fbk1 = fbk.w_m fbk0) ->
  value (Observer.output fbk0 w) = Ok out ->
  Observer.output fbk1 w' = Observer.output fbk0 w.
Proof.
  destruct fbk0 as [u0 i0 m0 ? ? ? ? ? ? ?], fbk1 as [u1 i1 m1 ? ? ? ? ? ? ?].
  destruct st as [psi th wm].
  cbn [fbk.u_ss fbk.i_ss fbk.w_m]. intros -> -> Hm.
  destruct s; [|rewrite (Hm eq_refl)]; clear Hm.
  all: both_runs.
  all: intros Hv; first [ discriminate Hv | reflexivity ].
Qed.

(** X5.  Which speed the reduced-order [output] uses.  In the sensorless
    mode the call reads only [u_ss] and [i_ss] of the feedback object: two
    calls that differ in the measured speed (or in any other attribute) run
    the same.  In the sensored mode it reads [u_ss], [i_ss] and [w_m], returns
    the measured [w_m] as [fbk.w_m], and does not read the speed estimate
    [self.state.w_m]: the value returned, the divisions and the derivatives
    stored are the same whatever that state holds. *)
Theorem speed_signal_by_mode (w : World Observer.t) :
  (Observer.sensorless (self w) = true ->
   forall fbk0 fbk1 : fbk.t,
     fbk.u_ss fbk1 = fbk.u_ss fbk0 -> fbk.i_ss fbk1 = fbk.i_ss fbk0 ->
     Observer.output fbk1 w = Observer.output fbk0 w)
  /\ (Observer.sensorless (self w) = false ->
      (forall fbk0 fbk1 : fbk.t,
         fbk.u_ss fbk1 = fbk.u_ss fbk0 -> fbk.i_ss fbk1 = fbk.i_ss fbk0 ->
         fbk.w_m fbk1 = fbk.w_m fbk0 ->
         Observer.output fbk1 w = Observer.output fbk0 w)
      /\ (forall (fbk0 out : fbk.t),
            value (Observer.output fbk0 w) = Ok out ->
            fbk.w_m out = fbk.w_m fbk0)
      /\ (forall (fbk0 : fbk.t) (w_m' : R),
            let o := self w in
            let st := Observer.state o in
            let w' :=
              mkWorld (model_par w)
                (Observer.mk (Observer.sensorless o) (Observer.T_s o)
                   (Observer.gain o)
                   (Observer.state.mk (Observer.state.psi_R st)
                      (Observer.state.theta_s st) w_m')
                   (Observer._work o)) in
            value (Observer.output fbk0 w') = value (Observer.output fbk0 w)
            /\ divisions (Observer.output fbk0 w')
               = divisions (Observer.output fbk0 w)
            /\ Observer._work (self (final (Observer.output fbk0 w')))
               = Observer._work (self (final (Observer.output fbk0 w))))).
Proof.
  split; intros Hs; [|split; [|split]].
  - intros [u0 i0 ? ? ? ? ? ? ? ?] [u1 i1 ? ? ? ? ? ? ? ?].
    cbn [fbk.u_ss fbk.i_ss]. intros -> ->.
    unfold Observer.output, mbind, M_bind, bind, get. cbv beta iota.
    rewrite Hs. reflexivity.
  - intros [u0 i0 ? ? ? ? ? ? ? ?] [u1 i1 ? ? ? ? ? ? ? ?].
    cbn [fbk.u_ss fbk.i_ss fbk.w_m]. intros -> -> ->.
    reflexivity.
  - intros fbk0 out Hout.
    destruct (Observer_output_Ok w fbk0 out Hout)
      as (_ & _ & k1 & k2 & _ & _ & _ & _ & _ & Hwm & _).
    rewrite Hs in Hwm. exact Hwm.
  - intros fbk0 w_m' o st w'. subst o st w'.
    destruct w as [par [s T g [psi th wm] wk]]. cbn in Hs. subst s.
    cbn [self model_par Observer.sensorless Observer.T_s Observer.gain
         Observer.state Observer._work Observer.state.psi_R
         Observer.state.theta_s].
    both_runs.
    all: repeat split; reflexivity.
Qed.

Lemma speed_signal_by_mode_witness :
  Observer.output (measured j 1 5) (example_observer true)
  = Observer.output (measured j 1 0) (example_observer true).
Proof.
  apply (proj1 (speed_signal_by_mode (example_observer true)));
    reflexivity.
Defined.

(** X6.  [output] of the reduced-order observer can be called again at the
    same sampling instant: a second call on the object the first one left,
    with the same measurements or with the feedback object the first call
    returned, returns the same value, executes the same divisions and leaves
    the object as the first call left it.  Only [update] advances the
    observer. *)
Theorem Observer_output_idempotent (w : World Observer.t) (fbk0 : fbk.t) :
  let o := Observer.output fbk0 w in
  Observer.output fbk0 (final o) = o
  /\ (forall out, value o = Ok out -> Observer.output out (final o) = o).
Proof.
  cbn zeta.
  destruct (value (Observer.output fbk0 w)) as [out|e] eqn:Hv.
  - pose proof (Observer_output_Ok w fbk0 out Hv) as H. cbn zeta in H.
    destruct H as (_ & _ & k1 & k2 & _ & Hu & Hi & _ & _ & Hm & _ & _ & _ & _
                   & _ & _ & Hfin).
    rewrite Hfin. revert Hv Hm. clear Hfin.
    destruct w as [par [s T g st [d1 d2 old]]].
    cbn [self model_par Observer.sensorless Observer.T_s Observer.gain
         Observer.state Observer._work Observer.work.old_i_s].
    intros Hv Hm. split.
    + apply (Observer_output_reads _ _ _ _ _ _ _ _ _ _ _ _ out);
        [reflexivity | reflexivity | reflexivity | exact Hv].
    + intros out' [= <-].
      apply (Observer_output_reads _ _ _ _ _ _ _ _ _ _ _ _ out);
        [exact Hu | exact Hi | | exact Hv].
      intros ->. exact Hm.
  - rewrite (Observer_output_Raise w fbk0 e Hv). split; [reflexivity|].
    intros out Hout. discriminate Hout.
Qed.

(** X7.  The first call.  On an observer that was just constructed,
    [output] returns the measured vectors as they are ([theta_s = 0], so
    [i_s = i_ss] and [u_s = u_ss]) with [psi_R = 0].  The reduced-order
    observer reports the speed 0 in the sensorless mode and the measured
    speed otherwise, the slip [w_r = 0] without a division by the flux, and
    divides the current step by the sampling period of its parameters.  The
    full-order observer reports the speed 0, takes the whole measured
    current as the estimation error and stores the speed derivative 0. *)
Theorem first_output_in_stator_coordinates :
  (forall (p : ObserverPars) (fbk0 out : fbk.t),
     let o := Observer.output fbk0 (Observer.init p) in
     value o = Ok out ->
     fbk.theta_s out = 0 /\ fbk.psi_R out = 0
     /\ fbk.i_s out = fbk.i_ss fbk0 /\ fbk.u_s out = fbk.u_ss fbk0
     /\ fbk.w_m out = (if op_sensorless p then 0 else fbk.w_m fbk0)
     /\ fbk.w_r out = 0
     /\ In (Div "d_i_s" (op_T_s p)) (divisions o)
     /\ forall d, ~ In (Div "w_r" d) (divisions o))
  /\ (forall (p : FullOrderObserverPars) (w : World FullOrderObserver.t)
             (fbk0 out : fbk.t),
        FullOrderObserver.init p = Ok w ->
        let o := FullOrderObserver.output fbk0 w in
        value o = Ok out ->
        fbk.theta_s out = 0 /\ fbk.psi_R out = 0
        /\ fbk.i_s out = fbk.i_ss fbk0 /\ fbk.u_s out = fbk.u_ss fbk0
        /\ fbk.w_m out = 0
        /\ FullOrderCall.err_i_s w out = (fbk.i_ss fbk0 - 0)%C
        /\ FullOrderObserver.work.d_w_m
             (FullOrderObserver._work (self (final o))) = 0).
Proof.
  split.
  - intros p fbk0 out o Hout. subst o.
    destruct (Observer_output_Ok _ _ _ Hout)
      as (_ & _ & k1 & k2 & _ & _ & _ & Hpsi & Hth & Hwm & His & Hus & _
          & _ & Hwr & Htr & _).
    cbn zeta in *. cbn in Hpsi, Hth, Hwm.
    rewrite Hth, rotate_0 in His, Hus. rewrite Hpsi in Hwr, Htr.
    destruct (Rlt_dec 0 0) as [H0|_]; [lra|].
    split_and!; try assumption.
    + rewrite Htr. cbn. tauto.
    + rewrite Htr. intros d Hd. find_division.
  - intros p w fbk0 out Hinit o Hout. subst o.
    unfold FullOrderObserver.init in Hinit.
    destruct (negb _); [discriminate|]. injection Hinit as <-.
    destruct (FullOrderObserver_output_Ok _ _ _ Hout)
      as (_ & _ & k & _ & _ & _ & Hpsi & Hth & Hwm & His & Hus & _ & _ & _
          & _ & Hfin).
    cbn zeta in *. cbn in Hpsi, Hth, Hwm.
    rewrite Hth, rotate_0 in His, Hus.
    split_and!; try assumption.
    + unfold FullOrderCall.err_i_s. rewrite His. reflexivity.
    + rewrite Hfin. cbn [self FullOrderObserver._work
                         FullOrderObserver.work.d_w_m].
      unfold FullOrderCall.d_w_m. rewrite Hpsi.
      destruct (Rlt_dec 0 0); [lra | reflexivity].
Qed.

Lemma first_output_in_stator_coordinates_witness :
  exists out,
    value (Observer.output (measured j 1 0)
             (Observer.init (example_observer_par true))) = Ok out
    /\ fbk.i_s out = RtoC 1.
Proof.
  destruct (Observer_output_returns (example_observer true) (measured j 1 0))
    as [out Hout];
    [cbn; lra | cbn; lra | apply (example_gain_returns true) |].
  exists out. split; [exact Hout|].
  destruct (proj1 first_output_in_stator_coordinates
              (example_observer_par true) (measured j 1 0) out Hout)
    as (_ & _ & His & _).
  exact His.
Defined.

(** X8.  In the sensorless mode the speed estimate of the reduced-order
    observer is a first-order low-pass filter of [w_s - w_r].  A sampling
    instant ([output], then [update] with the period [T_s]) sets it to
    [w_m + T_s*alpha_o*(w_s - w_r - w_m)].  For [0 <= T_s*alpha_o <= 1] the
    new estimate lies between the old one and [w_s - w_r], and for
    [T_s*alpha_o = 1] it is [w_s - w_r]. *)
Theorem speed_estimate_low_pass (w : World Observer.t) (fbk0 out : fbk.t)
    (T_s : R) :
  value (Observer.output fbk0 w) = Ok out ->
  let o := Observer_cycle T_s fbk0 w in
  let alpha_o := gain.alpha_o (Observer.gain (self w)) in
  let w_m := Observer.state.w_m (Observer.state (self w)) in
  let w_m' := Observer.state.w_m (Observer.state (self (final o))) in
  let target := fbk.w_s out - fbk.w_r out in
  value o = Ok tt
  /\ (Observer.sensorless (self w) = true ->
      w_m' = w_m + T_s * alpha_o * (target - w_m)
      /\ (0 <= T_s * alpha_o <= 1 ->
          Rmin w_m target <= w_m' <= Rmax w_m target)
      /\ (T_s * alpha_o = 1 -> w_m' = target)).
Proof.
  intros Hout o. subst o. cbn zeta.
  rewrite (Observer_cycle_Ok _ _ _ _ Hout). split; [reflexivity|].
  intros Hs.
  destruct (Observer_output_Ok w fbk0 out Hout)
    as (_ & _ & k1 & k2 & _ & _ & _ & _ & _ & Hwm & _ & _ & _ & _ & _ & _
        & Hfin).
  cbn zeta in *. rewrite Hs in Hwm. rewrite Hfin. cbn. rewrite Hwm.
  set (a := gain.alpha_o (Observer.gain (self w))).
  set (m := Observer.state.w_m (Observer.state (self w))).
  set (t := fbk.w_s out - fbk.w_r out).
  replace (fbk.w_s out - fbk.w_r out - m) with (t - m) by (unfold t; ring).
  split; [ring|]. split.
  - intros [H0 H1]. unfold Rmin, Rmax.
    destruct (Rle_dec m t); split; nra.
  - intros H1. replace (T_s * (a * (t - m))) with (T_s * a * (t - m)) by ring.
    rewrite H1. ring.
Qed.

Lemma speed_estimate_low_pass_witness :
  value (Observer_cycle 1 (measured j 1 0) (example_observer true)) = Ok tt.
Proof.
  destruct (Observer_output_returns (example_observer true) (measured j 1 0))
    as [out Hout];
    [cbn; lra | cbn; lra | apply (example_gain_returns true) |].
  apply (speed_estimate_low_pass _ _ out 1 Hout).
Defined.

(** * Further properties of the parameter records and the gains *)

(** X9.  The constructors of the parameter records.  With [L_M = 0] both
    [ObserverPars] and [FullOrderObserverPars] raise [ZeroDivisionError],
    also when the caller supplies its own gain function: [R_R/L_M] is
    computed first.  Otherwise the gain function is the caller's, in either
    mode, or else the default of the mode; [alpha_o] is stored as given; and
    the full-order record holds [alpha_i] and [g = alpha_i - R_R/L_M]. *)
Theorem observer_pars_init_cases (model_par : ModelPars) (T_s : R)
    (sensorless : bool) (alpha_o alpha_i : R)
    (k_o : option (R -> result complex)) :
  let alpha := R_R model_par / L_M model_par in
  let gain_k_o :=
    match k_o with
    | Some k_o => k_o
    | None => if sensorless then default_k_o_sensorless alpha
              else default_k_o_sensored alpha
    end in
  (L_M model_par = 0 ->
   ObserverPars_init model_par T_s sensorless alpha_o k_o
   = Raise ZeroDivisionError
   /\ FullOrderObserverPars_init model_par T_s sensorless alpha_o k_o alpha_i
      = Raise ZeroDivisionError)
  /\ (L_M model_par <> 0 ->
      ObserverPars_init model_par T_s sensorless alpha_o k_o
      = Ok (mkObserverPars model_par T_s sensorless
              (gain.mk alpha_o gain_k_o))
      /\ FullOrderObserverPars_init model_par T_s sensorless alpha_o k_o
           alpha_i
         = Ok (mkFullOrderObserverPars model_par T_s sensorless
                 (gain_full.mk alpha_o gain_k_o alpha_i (alpha_i - alpha)))).
Proof.
  cbn zeta. unfold FullOrderObserverPars_init, ObserverPars_init, div.
  split; intros HL; destruct (Req_dec_T (L_M model_par) 0) as [E|E];
    try contradiction.
  - split; reflexivity.
  - destruct sensorless, k_o; split; reflexivity.
Qed.

Lemma observer_pars_init_cases_witness :
  FullOrderObserverPars_init example_par 1 true 1 None 2
  = Ok (mkFullOrderObserverPars example_par 1 true
          (gain_full.mk 1
             (default_k_o_sensorless (R_R example_par / L_M example_par))
             2 (2 - R_R example_par / L_M example_par))).
Proof.
  refine (proj2 (proj2 (observer_pars_init_cases example_par 1 true 1 2 None)
                   _)).
  cbn. lra.
Defined.

(** X10.  The default gain functions, for [alpha = R_R/L_M] other than 0.
    Both return at every speed; the gain at [-w_m] is the complex conjugate
    of the gain at [w_m]; at standstill the sensorless gain is 1/2 and the
    sensored gain is 1 (the current model); and for a positive [alpha] the
    real part of the sensorless gain is positive and that of the sensored
    gain is at least 1. *)
Theorem default_gains_conjugate_symmetric (alpha w_m : R) :
  alpha <> 0 ->
  exists k_sensorless k_sensored : complex,
    default_k_o_sensorless alpha w_m = Ok k_sensorless
    /\ default_k_o_sensorless alpha (- w_m) = Ok (conj k_sensorless)
    /\ default_k_o_sensored alpha w_m = Ok k_sensored
    /\ default_k_o_sensored alpha (- w_m) = Ok (conj k_sensored)
    /\ (w_m = 0 -> k_sensorless = RtoC (1 / 2) /\ k_sensored = RtoC 1)
    /\ (0 < alpha -> 0 < real k_sensorless /\ 1 <= real k_sensored).
Proof.
  intros Ha.
  assert (Hd : alpha * alpha + w_m * w_m <> 0) by nra.
  assert (Hdp : 0 < alpha * alpha + w_m * w_m) by nra.
  unfold default_k_o_sensorless, default_k_o_sensored, cdiv.
  unfold Cadd, Csub, Cmul, conj, RtoC, j. cbn [real imag].
  rewrite Rabs_Ropp.
  destruct (Req_dec_T _ _) as [E|_]; [exfalso; nra|].
  destruct (Req_dec_T _ _) as [E|_]; [exfalso; nra|].
  cbn [mbind result_bind mret result_ret].
  eexists _, _. split; [reflexivity|]. split.
  { f_equal. apply complex_eq; cbn [real imag]; field; nra. }
  split; [reflexivity|]. split.
  { f_equal. unfold Cadd. apply complex_eq; cbn [real imag]; field; nra. }
  pose proof (Rabs_pos w_m) as Hw.
  split.
  - intros ->. rewrite Rabs_R0. unfold Cadd.
    split; apply complex_eq; cbn [real imag]; field; nra.
  - intros Hpos. unfold Cadd. cbn [real imag].
    set (d := (alpha - (0 * w_m - 1 * 0)) * (alpha - (0 * w_m - 1 * 0))
              + (0 - (0 * 0 + 1 * w_m)) * (0 - (0 * 0 + 1 * w_m))).
    assert (Hdd : 0 < d) by (unfold d; nra).
    pose proof (Rinv_0_lt_compat d Hdd) as Hinv.
    unfold Rdiv. split.
    + apply Rmult_lt_0_compat; [nra | exact Hinv].
    + assert (0 <= (2 / 10 * Rabs w_m * (alpha - (0 * w_m - 1 * 0))
                    + 0 * (0 - (0 * 0 + 1 * w_m))) * / d).
      { apply Rmult_le_pos; [nra | lra]. }
      unfold Rdiv in *. lra.
Qed.

Lemma default_gains_conjugate_symmetric_witness :
  exists k : complex,
    default_k_o_sensorless 1 1 = Ok k
    /\ default_k_o_sensorless 1 (- 1) = Ok (conj k).
Proof.
  destruct (default_gains_conjugate_symmetric 1 1) as (k & _ & H1 & H2 & _);
    [lra|].
  exists k. split; [exact H1 | exact H2].
Defined.

(** X11.  A machine with [L_M = 0].  The reduced-order [output] raises
    [ZeroDivisionError] (it divides [R_R] by [L_M] before it calls the gain
    function) and leaves the observer as it was.  The full-order [output]
    raises it at [par.alpha = par.R_R/par.L_M], after the assignment of
    [par.R_sgm]: the exception leaves [R_sgm = R_s + R_R] on the caller's
    [ModelPars] record, [alpha] as it was, and the observer itself
    untouched. *)
Theorem zero_L_M_raises :
  (forall (w : World Observer.t) (fbk0 : fbk.t),
     L_M (model_par w) = 0 ->
     let o := Observer.output fbk0 w in
     value o = Raise ZeroDivisionError /\ final o = w)
  /\ (forall (w : World FullOrderObserver.t) (fbk0 : fbk.t),
        L_M (model_par w) = 0 ->
        let o := FullOrderObserver.output fbk0 w in
        let par := model_par w in
        value o = Raise ZeroDivisionError
        /\ final o
           = mkWorld (setattr par "R_sgm" (R_s par + R_R par)) (self w)
        /\ attrs (model_par (final o)) !! "R_sgm" = Some (R_s par + R_R par)
        /\ attrs (model_par (final o)) !! "alpha" = attrs par !! "alpha"
        /\ divisions o = [Div "alpha" 0]).
Proof.
  split.
  - intros w fbk0 HL. cbn zeta.
    run (Observer.output fbk0 w).
    all: split; reflexivity.
  - intros w fbk0 HL. cbn zeta.
    run (FullOrderObserver.output fbk0 w).
    unfold FullOrderObserver.set_par, setattr. cbn [model_par self attrs].
    rewrite lookup_insert_eq, lookup_insert_ne by done. rewrite HL.
    split_and!; reflexivity.
Qed.

Lemma zero_L_M_raises_witness :
  let par := mkModelPars 1 1 1 0 1%Z 1 ∅ in
  let w := mkWorld par (self example_full_observer) in
  value (FullOrderObserver.output (measured j 1 0) w)
  = Raise ZeroDivisionError
  /\ attrs (model_par (final (FullOrderObserver.output (measured j 1 0) w)))
     !! "R_sgm" = Some (1 + 1).
Proof.
  intros par w.
  destruct (proj2 zero_L_M_raises w (measured j 1 0)) as (Hv & _ & Ha & _);
    [reflexivity|].
  split; [exact Hv | exact Ha].
Defined.

(** * Further properties of the full-order observer *)

(** X12.  The speed adaptation of the full-order observer is guarded by the
    flux.  Every division at [p_term] and at [self._work.d_w_m] is by a
    positive [psi_R].  When [output] returns, the speed it works with is
    [p_term + self.state.w_m] and the stored derivative of the integral term
    is [alpha_i*p_term]; with [psi_R <= 0] both [p_term] and the stored
    derivative are 0 and neither division is executed. *)
Theorem full_order_speed_adaptation_guarded
    (w : World FullOrderObserver.t) (fbk0 : fbk.t) :
  let o := FullOrderObserver.output fbk0 w in
  let psi_R :=
    FullOrderObserver.state.psi_R (FullOrderObserver.state (self w)) in
  (forall d,
     In (Div "p_term" d) (divisions o) \/ In (Div "d_w_m" d) (divisions o) ->
     0 < d)
  /\ (forall out, value o = Ok out ->
        let d_w_m :=
          FullOrderObserver.work.d_w_m
            (FullOrderObserver._work (self (final o))) in
        let p_term := FullOrderCall.p_term w out in
        FullOrderCall.w_m w out
        = p_term
          + FullOrderObserver.state.w_m (FullOrderObserver.state (self w))
        /\ d_w_m
           = gain_full.alpha_i (FullOrderObserver.gain (self w)) * p_term
        /\ (psi_R <= 0 ->
            p_term = 0 /\ d_w_m = 0
            /\ forall d, ~ In (Div "p_term" d) (divisions o)
                         /\ ~ In (Div "d_w_m" d) (divisions o))).
Proof.
  intros o psi_R. subst o psi_R. split.
  - intros d [Hd|Hd];
      apply (Forall_In _ _ _ (FullOrderObserver_output_guards w fbk0) Hd);
      cbn [site]; tauto.
  - intros out Hout.
    destruct (FullOrderObserver_output_Ok w fbk0 out Hout)
      as (_ & _ & k & _ & _ & _ & Hpsi & _ & Hwm & _ & _ & _ & _ & _ & Htr
          & Hfin).
    cbn zeta. rewrite Hfin, Htr, <- Hpsi, <- Hwm.
    cbn [self FullOrderObserver._work FullOrderObserver.work.d_w_m].
    split; [reflexivity|].
    unfold FullOrderCall.d_w_m, FullOrderCall.p_term.
    destruct (Rlt_dec 0 (fbk.psi_R out)) as [Hp|Hp].
    + split; [field; lra|]. intros; lra.
    + split; [ring|]. intros _. split; [reflexivity|]. split; [reflexivity|].
      intros d. split; intros Hd; find_division.
Qed.

Lemma full_order_speed_adaptation_guarded_witness :
  let o := FullOrderObserver.output (measured j 1 0) example_full_observer in
  exists out,
    value o = Ok out
    /\ FullOrderObserver.work.d_w_m
         (FullOrderObserver._work (self (final o))) = 0.
Proof.
  intros o. subst o.
  destruct (FullOrderObserver_output_returns example_full_observer
              (measured j 1 0))
    as [out Hout];
    [cbn; lra | cbn; lra | apply (example_gain_returns true) |].
  exists out. split; [exact Hout|].
  destruct (proj2 (full_order_speed_adaptation_guarded
                     example_full_observer (measured j 1 0)) out Hout)
    as (_ & _ & Hzero).
  apply Hzero. cbn. lra.
Defined.

(** X13.  With no current estimation error ([fbk.i_s] equal to the current
    estimate [self.state.i_s]) the full-order [output] is the current model:
    [w_s = w_m + R_R*Im(i_s)/psi_R] for a positive [psi_R] (and [w_s = w_m]
    otherwise), the stored flux derivative is
    [R_R*Re(i_s) - (R_R/L_M)*psi_R], and the stored derivative of the speed
    estimate is 0, whatever the gains are. *)
Theorem full_order_zero_error (w : World FullOrderObserver.t)
    (fbk0 out : fbk.t) :
  value (FullOrderObserver.output fbk0 w) = Ok out ->
  fbk.i_s out
  = FullOrderObserver.state.i_s (FullOrderObserver.state (self w)) ->
  let par := model_par w in
  let work :=
    FullOrderObserver._work
      (self (final (FullOrderObserver.output fbk0 w))) in
  fbk.w_s out
  = fbk.w_m out + (if Rlt_dec 0 (fbk.psi_R out)
                   then R_R par * imag (fbk.i_s out) / fbk.psi_R out
                   else 0)
  /\ FullOrderObserver.work.d_psi_R work
     = R_R par * real (fbk.i_s out) - R_R par / L_M par * fbk.psi_R out
  /\ FullOrderObserver.work.d_w_m work = 0.
Proof.
  intros Hout Herr.
  destruct (FullOrderObserver_output_Ok w fbk0 out Hout)
    as (HL & _ & k & _ & _ & _ & _ & _ & _ & _ & _ & _ & Hws & _ & _ & Hfin).
  cbn zeta in *. rewrite Hfin, Hws.
  cbn [self FullOrderObserver._work FullOrderObserver.work.d_psi_R
       FullOrderObserver.work.d_w_m].
  unfold FullOrderCall.d_psi_R, FullOrderCall.d_w_m, FullOrderCall.num,
    FullOrderCall.den, FullOrderCall.w_m, FullOrderCall.p_term,
    FullOrderCall.err_i_s, FullOrderObserver.d_psi_R_of,
    FullOrderObserver.num_of, FullOrderObserver.den_of.
  rewrite <- Herr. destruct (fbk.i_s out) as [x y].
  unfold Csub. cbn [real imag].
  replace (fbk.psi_R out - L_sgm (model_par w) * (x - x))
    with (fbk.psi_R out) by ring.
  destruct (Rlt_dec 0 (fbk.psi_R out)) as [Hp|Hp].
  - repeat split; field; lra.
  - repeat split; ring.
Qed.

Lemma full_order_zero_error_witness :
  let o := FullOrderObserver.output (measured j 0 0) example_full_observer in
  exists out,
    value o = Ok out
    /\ FullOrderObserver.work.d_w_m
         (FullOrderObserver._work (self (final o))) = 0.
Proof.
  intros o. subst o.
  destruct (FullOrderObserver_output_returns example_full_observer
              (measured j 0 0))
    as [out Hout];
    [cbn; lra | cbn; lra | apply (example_gain_returns true) |].
  exists out. split; [exact Hout|].
  apply (full_order_zero_error example_full_observer (measured j 0 0) out
           Hout).
  destruct (FullOrderObserver_output_Ok _ _ _ Hout)
    as (_ & _ & k & _ & _ & _ & _ & Hth & _ & His & _).
  cbn in Hth. rewrite Hth, rotate_0 in His. exact His.
Defined.

Lemma setattr_again (m : gmap string R) (x a : R) :
  <["alpha":=a]> (<["R_sgm":=x]> (<["alpha":=a]> (<["R_sgm":=x]> m)))
  = <["alpha":=a]> (<["R_sgm":=x]> m).
Proof.
  apply map_eq. intros k.
  destruct (decide (k = "alpha")) as [->|Ha].
  - rewrite !lookup_insert_eq. reflexivity.
  - rewrite !(lookup_insert_ne _ "alpha") by done.
    destruct (decide (k = "R_sgm")) as [->|Hr].
    + rewrite !lookup_insert_eq. reflexivity.
    + rewrite !(lookup_insert_ne _ "R_sgm") by done.
      rewrite !(lookup_insert_ne _ "alpha") by done.
      rewrite !(lookup_insert_ne _ "R_sgm") by done. reflexivity.
Qed.

(** The full-order [output] reads neither the derivatives stored by an
    earlier call, nor the attributes [R_sgm] and [alpha] an earlier call
    left on the parameter record, nor, of [fbk], anything but the measured
    vectors (it returns [fbk.w_r] as it got it). *)
Lemma FullOrderObserver_output_reads (par : ModelPars) (s : bool)
    (g : gain_full.t) (st : FullOrderObserver.state.t)
    (wk wk' : FullOrderObserver.work.t) (fbk0 fbk1 out : fbk.t) :
  let w := mkWorld par (FullOrderObserver.mk s g st wk) in
  let w' :=
    mkWorld (setattr (setattr par "R_sgm" (R_s par + R_R par))
                     "alpha" (R_R par / L_M par))
            (FullOrderObserver.mk s g st wk') in
  fbk.u_ss fbk1 = fbk.u_ss fbk0 -> fbk.i_ss fbk1 = fbk.i_ss fbk0 ->
  fbk.w_r fbk1 = fbk.w_r fbk0 ->
  value (FullOrderObserver.output fbk0 w) = Ok out ->
  FullOrderObserver.output fbk1 w' = FullOrderObserver.output fbk0 w.
Proof.
  destruct fbk0 as [u0 i0 ? ? ? ? ? ? ? r0], fbk1 as [u1 i1 ? ? ? ? ? ? ? r1].
  destruct st as [psi i th wm], par as [Rs RR Ls LM np J m],
    wk as [d1 d2 d3], wk' as [e1 e2 e3].
  cbn [fbk.u_ss fbk.i_ss fbk.w_r]. intros -> -> ->.
  both_runs.
  all: intros Hv; try discriminate Hv.
  all: rewrite setattr_again; reflexivity.
Qed.

(** X14.  A call of the full-order [output] that returned can be repeated at
    the same sampling instant: a second call on the objects the first one
    left, with the same measurements or with the feedback object the first
    call returned, returns the same value, executes the same divisions and
    leaves the observer and the parameter record (with its [R_sgm] and
    [alpha]) as the first call left them. *)
Theorem FullOrderObserver_output_idempotent (w : World FullOrderObserver.t)
    (fbk0 out : fbk.t) :
  let o := FullOrderObserver.output fbk0 w in
  value o = Ok out ->
  FullOrderObserver.output fbk0 (final o) = o
  /\ FullOrderObserver.output out (final o) = o.
Proof.
  intros o Hv. subst o.
  pose proof (FullOrderObserver_output_Ok w fbk0 out Hv) as H.
  cbn zeta in H.
  destruct H as (_ & _ & k & _ & Hu & Hi & _ & _ & _ & _ & _ & _ & _ & Hr & _
                 & Hfin).
  rewrite Hfin. revert Hv. clear Hfin.
  destruct w as [par [s g st wk]].
  cbn [self model_par FullOrderObserver.sensorless FullOrderObserver.gain
       FullOrderObserver.state].
  intros Hv. split.
  - apply (FullOrderObserver_output_reads _ _ _ _ _ _ _ _ out);
      [reflexivity | reflexivity | reflexivity | exact Hv].
  - apply (FullOrderObserver_output_reads _ _ _ _ _ _ _ _ out);
      [exact Hu | exact Hi | exact Hr | exact Hv].
Qed.

Lemma FullOrderObserver_output_idempotent_witness :
  let o := FullOrderObserver.output (measured j 1 0) example_full_observer in
  FullOrderObserver.output (measured j 1 0) (final o) = o.
Proof.
  intros o. subst o.
  destruct (FullOrderObserver_output_returns example_full_observer
              (measured j 1 0))
    as [out Hout];
    [cbn; lra | cbn; lra | apply (example_gain_returns true) |].
  apply (FullOrderObserver_output_idempotent _ _ out Hout).
Defined.

(** * Further properties of the converter models *)

(** X15.  The inverter model does not depend on the coordinates: with the
    switching state and the AC-side current both turned by an angle [theta],
    [dc_current] returns the same DC-side current, and [ac_voltage] of the
    turned switching state is the AC-side voltage turned by [theta]. *)
Theorem inverter_coordinate_free (q i_c : complex) (u_dc theta : R) :
  Inverter.dc_current (Cexp (j * theta) * q) (Cexp (j * theta) * i_c)
  = Inverter.dc_current q i_c
  /\ Inverter.ac_voltage (Cexp (j * theta) * q) u_dc
     = (Cexp (j * theta) * Inverter.ac_voltage q u_dc)%C.
Proof.
  rewrite Cexp_j. pose proof (cos_sin_sqr theta) as H1.
  unfold Inverter.dc_current, Inverter.ac_voltage, Cmul, conj, RtoC.
  destruct q as [qr qi], i_c as [ir ii]. cbn [real imag].
  set (c := cos theta) in *. set (s := sin theta) in *.
  split.
  - replace ((c * qr - s * qi) * (c * ir - s * ii) -
             (c * qi + s * qr) * - (c * ii + s * ir))
      with ((c * c + s * s) * (qr * ir - qi * - ii)) by ring.
    rewrite H1. ring.
  - f_equal; ring.
Qed.

(** The second and the third phase, by the angle of the first. *)
Lemma cos_phase_b (theta : R) :
  cos (theta - 2 * PI / 3) = - (1 / 2) * cos theta + sqrt 3 / 2 * sin theta.
Proof.
  replace (2 * PI / 3) with (2 * (PI / 3)) by field.
  rewrite cos_minus, cos_2PI3, sin_2PI3. lra.
Qed.

Lemma cos_phase_c (theta : R) :
  cos (theta - 4 * PI / 3) = - (1 / 2) * cos theta - sqrt 3 / 2 * sin theta.
Proof.
  replace (4 * PI / 3) with (PI / 3 + PI) by field.
  rewrite cos_minus, neg_cos, neg_sin, cos_PI3, sin_PI3. lra.
Qed.

Lemma sqrt3_sqr : sqrt 3 * sqrt 3 = 3.
Proof. apply sqrt_sqrt. lra. Qed.

Lemma grid_voltages_sum (conv : FrequencyConverter.t) (t : R) :
  let '(a, b, c) := FrequencyConverter.grid_voltages conv t in
  a + b + c = 0
  /\ a * a + b * b + c * c
     = 15 / 10 * (FrequencyConverter.u_g conv * FrequencyConverter.u_g conv).
Proof.
  unfold FrequencyConverter.grid_voltages.
  rewrite cos_phase_b, cos_phase_c.
  pose proof sqrt3_sqr as H3.
  pose proof (cos_sin_sqr (FrequencyConverter.w_g conv * t)) as H1.
  set (c := cos _) in *. set (s := sin _) in *. set (r := sqrt 3) in *.
  set (u := FrequencyConverter.u_g conv).
  split; [field|].
  replace (u * c * (u * c)
           + u * (- (1 / 2) * c + r / 2 * s)
             * (u * (- (1 / 2) * c + r / 2 * s))
           + u * (- (1 / 2) * c - r / 2 * s)
             * (u * (- (1 / 2) * c - r / 2 * s)))
    with (u * u * (15 / 10 * (c * c) + (r * r) / 2 * (s * s))) by field.
  rewrite H3. replace (s * s) with (1 - c * c) by lra. field.
Qed.

(** Three numbers of sum 0: the spread between the largest and the smallest,
    by the sum of their squares. *)
Lemma spread_of_balanced (a b c U : R) :
  0 <= U -> a + b + c = 0 -> a * a + b * b + c * c = 15 / 10 * (U * U) ->
  15 / 10 * U <= Rmax (Rmax a b) c - Rmin (Rmin a b) c <= sqrt 3 * U.
Proof.
  intros HU Hsum Hsq.
  pose proof sqrt3_sqr as H3.
  assert (Hr : 0 <= sqrt 3) by apply sqrt_pos.
  set (r := sqrt 3) in *.
  assert (Hup : forall d, 0 <= d -> d * d <= 3 * (U * U) -> d <= r * U).
  { intros d Hd Hdd. destruct (Rle_dec d (r * U)) as [|Hn]; [assumption|].
    exfalso. assert (r * U < d) by lra.
    assert (0 <= r * U) by (apply Rmult_le_pos; assumption).
    assert ((r * U) * (r * U) < d * d) by nra.
    replace ((r * U) * (r * U)) with ((r * r) * (U * U)) in * by ring.
    rewrite H3 in *. lra. }
  assert (Hlo : forall d,
             0 <= d -> 9 / 4 * (U * U) <= d * d -> 15 / 10 * U <= d).
  { intros d Hd Hdd. nra. }
  unfold Rmax, Rmin.
  repeat destruct (Rle_dec _ _); split;
    first [ apply Hlo; nra | apply Hup; nra ].
Qed.

Lemma Rabs_mult_self (x : R) : Rabs x * Rabs x = x * x.
Proof. unfold Rabs. destruct (Rcase_abs x); ring. Qed.

Lemma u_di_bounds (conv : FrequencyConverter.t) (t : R) :
  15 / 10 * Rabs (FrequencyConverter.u_g conv) <= u_di conv t
  <= sqrt 3 * Rabs (FrequencyConverter.u_g conv).
Proof.
  unfold u_di.
  pose proof (grid_voltages_sum conv t) as H.
  destruct (FrequencyConverter.grid_voltages conv t) as [[a b] c].
  destruct H as [Hsum Hsq].
  cbn [FrequencyConverter.amax FrequencyConverter.amin].
  apply spread_of_balanced; [apply Rabs_pos | exact Hsum |].
  rewrite Rabs_mult_self. exact Hsq.
Qed.

(** The initial DC-bus voltage is the peak of the line-to-line voltage. *)
Lemma initial_u_dc0 (L C U_g f_g : R) :
  0 <= U_g ->
  let conv := FrequencyConverter.init L C U_g f_g in
  sqrt 3 * Rabs (FrequencyConverter.u_g conv) = FrequencyConverter.u_dc0 conv.
Proof.
  intros HU. cbn.
  assert (Hs : 0 <= sqrt (2 / 3)) by apply sqrt_pos.
  rewrite Rabs_pos_eq by (apply Rmult_le_pos; assumption).
  rewrite <- Rmult_assoc, <- sqrt_mult by lra.
  replace (3 * (2 / 3)) with 2 by field. reflexivity.
Qed.

(** X16.  The grid voltages are balanced: at every time the three phase
    voltages have the sum 0, their squares have the sum [1.5*u_g^2], and
    none of them exceeds the peak value [u_g] in magnitude. *)
Theorem grid_voltages_balanced (conv : FrequencyConverter.t) (t : R) :
  let '(a, b, c) := FrequencyConverter.grid_voltages conv t in
  let u_g := FrequencyConverter.u_g conv in
  a + b + c = 0
  /\ a * a + b * b + c * c = 15 / 10 * (u_g * u_g)
  /\ Rabs a <= Rabs u_g /\ Rabs b <= Rabs u_g /\ Rabs c <= Rabs u_g.
Proof.
  pose proof (grid_voltages_sum conv t) as H. revert H.
  unfold FrequencyConverter.grid_voltages. cbn zeta. intros [Hsum Hsq].
  split; [exact Hsum|]. split; [exact Hsq|].
  assert (Hb : forall x, Rabs (FrequencyConverter.u_g conv * cos x)
                         <= Rabs (FrequencyConverter.u_g conv)).
  { intros x. rewrite Rabs_mult.
    pose proof (Rabs_pos (FrequencyConverter.u_g conv)).
    assert (Rabs (cos x) <= 1)
      by (apply Rabs_le; pose proof (COS_bound x); lra).
    nra. }
  repeat split; apply Hb.
Qed.

(** X17.  The output voltage of the diode bridge, the largest minus the
    smallest phase voltage, stays between [1.5*|u_g|] and [sqrt(3)*|u_g|] at
    every time.  So for a current [i_L >= 0] (and [L > 0]) the derivative
    [d_i_L] that [f] returns lies between [(1.5*|u_g| - u_dc)/L] and
    [(sqrt(3)*|u_g| - u_dc)/L]. *)
Theorem diode_bridge_voltage_bounds (conv : FrequencyConverter.t)
    (t u_dc i_L i_dc : R) :
  let u_g := FrequencyConverter.u_g conv in
  15 / 10 * Rabs u_g <= u_di conv t <= sqrt 3 * Rabs u_g
  /\ (0 < FrequencyConverter.L conv -> FrequencyConverter.C conv <> 0 ->
      0 <= i_L ->
      exists d_u_dc d_i_L,
        value (FrequencyConverter.f t u_dc i_L i_dc conv) = Ok (d_u_dc, d_i_L)
        /\ (15 / 10 * Rabs u_g - u_dc) / FrequencyConverter.L conv <= d_i_L
           <= (sqrt 3 * Rabs u_g - u_dc) / FrequencyConverter.L conv).
Proof.
  cbn zeta. pose proof (u_di_bounds conv t) as Hb. split; [exact Hb|].
  intros HL HC Hi. rewrite f_returns by (assumption || lra). cbn [value].
  destruct (Rlt_dec i_L 0) as [H|_]; [lra|].
  eexists _, _. split; [reflexivity|].
  pose proof (Rinv_0_lt_compat _ HL) as Hinv.
  unfold Rdiv. split; apply Rmult_le_compat_r; lra.
Qed.

Lemma diode_bridge_voltage_bounds_witness :
  let conv := FrequencyConverter.init (2 / 1000) (235 / 1000000) 400 50 in
  exists d_u_dc d_i_L,
    value (FrequencyConverter.f 0 0 0 0 conv) = Ok (d_u_dc, d_i_L)
    /\ (15 / 10 * Rabs (FrequencyConverter.u_g conv) - 0) / (2 / 1000)
       <= d_i_L.
Proof.
  intros conv.
  destruct (proj2 (diode_bridge_voltage_bounds conv 0 0 0 0))
    as (d_u_dc & d_i_L & Hv & Hlo & _);
    [cbn; lra | cbn; lra | lra |].
  exists d_u_dc, d_i_L. split; [exact Hv | exact Hlo].
Defined.

(** X18.  The converter starts with the DC-bus voltage at the peak of the
    rectified voltage: for a grid voltage [U_g >= 0], the output voltage of
    the diode bridge never exceeds [u_dc0 = sqrt(2)*U_g].  So while the
    DC-bus voltage is at or above [u_dc0], the inductor-current derivative
    that [f] returns is never positive (for [L > 0]). *)
Theorem inductor_current_not_charged_above_u_dc0 (L C U_g f_g : R)
    (t u_dc i_L i_dc : R) :
  let conv := FrequencyConverter.init L C U_g f_g in
  0 <= U_g -> 0 < L -> C <> 0 ->
  FrequencyConverter.u_dc0 conv <= u_dc ->
  u_di conv t <= FrequencyConverter.u_dc0 conv
  /\ exists d_u_dc d_i_L,
       value (FrequencyConverter.f t u_dc i_L i_dc conv) = Ok (d_u_dc, d_i_L)
       /\ d_i_L <= 0.
Proof.
  intros conv HU HL HC Hu.
  pose proof (u_di_bounds conv t) as [_ Hb].
  pose proof (initial_u_dc0 L C U_g f_g HU) as H0. cbn zeta in H0.
  fold conv in H0. rewrite H0 in Hb. split; [exact Hb|].
  rewrite f_returns by (cbn; assumption || lra). cbn [value].
  eexists _, _. split; [reflexivity|].
  assert (Hraw : (u_di conv t - u_dc) / FrequencyConverter.L conv <= 0).
  { cbn [conv FrequencyConverter.init FrequencyConverter.L].
    pose proof (Rinv_0_lt_compat _ HL) as Hinv. unfold Rdiv.
    assert (u_di conv t - u_dc <= 0) by lra.
    fold conv. nra. }
  destruct (Rlt_dec i_L 0); [destruct (Rlt_dec _ 0)|]; lra.
Qed.

Lemma inductor_current_not_charged_above_u_dc0_witness :
  let conv := FrequencyConverter.init (2 / 1000) (235 / 1000000) 400 50 in
  exists d_u_dc d_i_L,
    value (FrequencyConverter.f 0 (FrequencyConverter.u_dc0 conv) 0 0 conv)
    = Ok (d_u_dc, d_i_L)
    /\ d_i_L <= 0.
Proof.
  intros conv.
  refine (proj2 _).
  apply (inductor_current_not_charged_above_u_dc0
           (2 / 1000) (235 / 1000000) 400 50 0
           (FrequencyConverter.u_dc0 conv) 0 0); fold conv; lra.
Defined.

Lemma amax_neg (a b c : R) :
  FrequencyConverter.amax (- b, - c, - a)
  = - FrequencyConverter.amin (a, b, c).
Proof.
  cbn. unfold Rmax, Rmin. repeat destruct (Rle_dec _ _); lra.
Qed.

Lemma amin_neg (a b c : R) :
  FrequencyConverter.amin (- b, - c, - a)
  = - FrequencyConverter.amax (a, b, c).
Proof.
  cbn. unfold Rmax, Rmin. repeat destruct (Rle_dec _ _); lra.
Qed.

(** A sixth of a grid period later the phase voltages are the negated
    voltages of the next phases. *)
Lemma grid_voltages_sixth (conv : FrequencyConverter.t) (t d : R) :
  FrequencyConverter.w_g conv * d = PI / 3 ->
  FrequencyConverter.grid_voltages conv (t + d)
  = (let '(a, b, c) := FrequencyConverter.grid_voltages conv t in
     (- b, - c, - a)).
Proof.
  intros Hd. unfold FrequencyConverter.grid_voltages. cbn zeta.
  set (th := FrequencyConverter.w_g conv * t).
  replace (FrequencyConverter.w_g conv * (t + d)) with (th + PI / 3)
    by (unfold th; lra).
  replace (th + PI / 3) with (th - 2 * PI / 3 + PI) by field.
  replace (th - 2 * PI / 3 + PI - 2 * PI / 3) with (th - 4 * PI / 3 + PI)
    by field.
  replace (th - 2 * PI / 3 + PI - 4 * PI / 3) with (th - PI - PI + PI)
    by field.
  rewrite !neg_cos.
  replace (th - PI - PI) with (th - 2 * PI) by ring.
  rewrite (cos_minus th (2 * PI)), cos_2PI, sin_2PI.
  f_equal; [f_equal|]; ring.
Qed.

(** X19.  The diode bridge gives six pulses per grid period: for a grid
    frequency [f_g] other than 0, the output voltage of the bridge at
    [t + 1/(6*f_g)] is that at [t], and [f] returns the same derivatives at
    both times. *)
Theorem diode_bridge_six_pulse (L C U_g f_g : R) (t u_dc i_L i_dc : R) :
  f_g <> 0 ->
  let conv := FrequencyConverter.init L C U_g f_g in
  u_di conv (t + 1 / (6 * f_g)) = u_di conv t
  /\ FrequencyConverter.f (t + 1 / (6 * f_g)) u_dc i_L i_dc conv
     = FrequencyConverter.f t u_dc i_L i_dc conv.
Proof.
  intros Hf conv.
  assert (Hu : u_di conv (t + 1 / (6 * f_g)) = u_di conv t).
  { unfold u_di. rewrite (grid_voltages_sixth conv t (1 / (6 * f_g))).
    - destruct (FrequencyConverter.grid_voltages conv t) as [[a b] c].
      rewrite amax_neg, amin_neg. ring.
    - cbn. field. exact Hf. }
  split; [exact Hu|].
  unfold FrequencyConverter.f, mbind, M_bind, bind, get.
  cbv beta iota zeta.
  fold (u_di conv (t + 1 / (6 * f_g))). fold (u_di conv t).
  rewrite Hu. reflexivity.
Qed.

Lemma diode_bridge_six_pulse_witness :
  let conv := FrequencyConverter.init (2 / 1000) (235 / 1000000) 400 50 in
  u_di conv (0 + 1 / (6 * 50)) = u_di conv 0.
Proof.
  intros conv.
  refine (proj1 (diode_bridge_six_pulse (2 / 1000) (235 / 1000000) 400 50
                   0 0 0 0 _)).
  lra.
Defined.

(** X20.  What the diode bridge guard of [f] ensures.  For [L] and [C] other
    than 0, [f] returns and leaves the converter as it was; [d_u_dc] is
    [(i_L - i_dc)/C] whatever the guard does; for a strictly negative
    current [i_L] the returned [d_i_L] is the larger of 0 and
    [(u_di - u_dc)/L], hence never negative; and for [i_L >= 0] it is
    [(u_di - u_dc)/L] as computed. *)
Theorem negative_inductor_current_clamped (conv : FrequencyConverter.t)
    (t u_dc i_L i_dc : R) :
  FrequencyConverter.L conv <> 0 -> FrequencyConverter.C conv <> 0 ->
  let o := FrequencyConverter.f t u_dc i_L i_dc conv in
  let raw := (u_di conv t - u_dc) / FrequencyConverter.L conv in
  exists d_u_dc d_i_L,
    value o = Ok (d_u_dc, d_i_L)
    /\ final o = conv
    /\ d_u_dc = (i_L - i_dc) / FrequencyConverter.C conv
    /\ (i_L < 0 -> d_i_L = Rmax 0 raw /\ 0 <= d_i_L)
    /\ (0 <= i_L -> d_i_L = raw).
Proof.
  intros HL HC o raw. subst o.
  rewrite f_returns by assumption. cbn [value final]. fold raw.
  eexists _, _. split; [reflexivity|]. split; [reflexivity|].
  split; [reflexivity|].
  unfold Rmax.
  destruct (Rlt_dec i_L 0); [destruct (Rlt_dec raw 0)|];
    destruct (Rle_dec 0 raw); split; intros; try split; lra.
Qed.

Lemma negative_inductor_current_clamped_witness :
  let conv := FrequencyConverter.init (2 / 1000) (235 / 1000000) 400 50 in
  exists d_u_dc d_i_L,
    value (FrequencyConverter.f 0 1000 (-1) 0 conv) = Ok (d_u_dc, d_i_L)
    /\ 0 <= d_i_L.
Proof.
  intros conv.
  destruct (negative_inductor_current_clamped conv 0 1000 (-1) 0)
    as (d_u_dc & d_i_L & Hv & _ & _ & Hneg & _); [cbn; lra | cbn; lra |].
  exists d_u_dc, d_i_L. split; [exact Hv|]. apply Hneg. lra.
Defined.
